(** * The settings resolver and tool dispatcher of [bundled/tool/lsp_server.py]

    A shallow embedding of the module-level functions of the language
    server that decide how the tool is run: the workspace settings store
    ([WORKSPACE_SETTINGS]) with its update and lookup functions, and the two
    runners [_run_tool_on_document] and [_run_tool].

    Python dictionaries that are only read by key are finite maps; the
    settings store, whose first value is observable, is an insertion-ordered
    association list.  Exceptions are explicit outcomes, and everything the
    runners do to the outside (log lines, notifications, calls of the three
    backends, the list object bound to [sys.path]) is threaded through a
    state-and-exception monad. *)

From Stdlib Require Import Ascii String.
From stdpp Require Import gmap strings list fin_maps.

Local Open Scope string_scope.
Local Open Scope list_scope.

(** ** Python values, exceptions *)

(** The values that occur in a settings dictionary: strings and lists of
    strings (section 6 of the specification gives the payload schema). *)
Inductive pyval : Type :=
| VStr (s : string)
| VList (l : list string).

#[global] Instance pyval_eq_dec : EqDecision pyval.
Proof. solve_decision. Defined.

Abbreviation pydict := (gmap string pyval).

Inductive exn : Type :=
| KeyError (key : string)
| IndexError
| TypeError
| Fault (message : string).

Inductive outcome (A : Type) : Type :=
| Ok (a : A)
| Raise (e : exn).
Arguments Ok {A} a.
Arguments Raise {A} e.

Definition is_Ok {A} (o : outcome A) : Prop :=
  match o with Ok _ => True | Raise _ => False end.

(** [bool(v)] for the values above. *)
Definition truthy (v : pyval) : bool :=
  match v with
  | VStr s => negb (String.eqb s "")
  | VList l => negb (bool_decide (l = []))
  end.

(** [len(v) > 0]. *)
Definition len_pos (v : pyval) : bool :=
  match v with
  | VStr s => Nat.ltb 0 (String.length s)
  | VList l => Nat.ltb 0 (length l)
  end.

(** [v[0]] on a value that is known to be non-empty; a string yields its
    first character. *)
Definition item0 (v : pyval) : outcome string :=
  match v with
  | VStr (String c _) => Ok (String c EmptyString)
  | VList (x :: _) => Ok x
  | _ => Raise IndexError
  end.

(** ** Insertion-ordered dictionaries

    [WORKSPACE_SETTINGS] is a [dict]: assigning to a key that is present
    keeps its position, a new key goes to the end, and [values()] iterates
    in that order. *)
Section Dict.
Context {V : Type}.

Fixpoint dict_set (k : string) (v : V) (d : list (string * V)) : list (string * V) :=
  match d with
  | [] => [(k, v)]
  | (k', v') :: d' =>
      if decide (k = k') then (k, v) :: d' else (k', v') :: dict_set k v d'
  end.

Fixpoint dict_get (k : string) (d : list (string * V)) : option V :=
  match d with
  | [] => None
  | (k', v') :: d' => if decide (k = k') then Some v' else dict_get k d'
  end.

Definition dict_keys (d : list (string * V)) : list string := d.*1.
Definition dict_values (d : list (string * V)) : list V := d.*2.

(** [d[k]] *)
Definition dict_item (k : string) (d : list (string * V)) : outcome V :=
  match dict_get k d with
  | Some v => Ok v
  | None => Raise (KeyError k)
  end.
End Dict.

(** [d[k]] on a settings record. *)
Definition getitem (d : pydict) (k : string) : outcome pyval :=
  match d !! k with
  | Some v => Ok v
  | None => Raise (KeyError k)
  end.

(** ** [pathlib.Path] on a POSIX host

    A pure path is its root (empty, one slash, or exactly two slashes) and
    its components; empty components and single dots are dropped when the
    path is parsed. *)
Record Path : Type := mkPath { root : string; parts : list string }.

#[global] Instance Path_eq_dec : EqDecision Path.
Proof. solve_decision. Defined.

Definition slash : ascii := "/"%char.

Fixpoint split_slash (s : string) : list string :=
  match s with
  | EmptyString => [EmptyString]
  | String c s' =>
      if Ascii.eqb c slash then EmptyString :: split_slash s'
      else match split_slash s' with
           | [] => [String c EmptyString]
           | w :: ws => String c w :: ws
           end
  end.

Definition path_root (s : string) : string :=
  match s with
  | String a (String b (String c _)) =>
      if Ascii.eqb a slash then
        if Ascii.eqb b slash then (if Ascii.eqb c slash then "/" else "//") else "/"
      else ""
  | String a (String b EmptyString) =>
      if Ascii.eqb a slash then (if Ascii.eqb b slash then "//" else "/") else ""
  | String a EmptyString => if Ascii.eqb a slash then "/" else ""
  | EmptyString => ""
  end.

Definition keep_part (s : string) : bool :=
  negb (String.eqb s "") && negb (String.eqb s ".").

(** [pathlib.Path(s)] *)
Definition Path_of (s : string) : Path :=
  {| root := path_root s; parts := List.filter keep_part (split_slash s) |}.

Fixpoint join_slash (l : list string) : string :=
  match l with
  | [] => ""
  | [x] => x
  | x :: l' => x +:+ "/" +:+ join_slash l'
  end.

(** [str(p)] *)
Definition Path_str (p : Path) : string :=
  match parts p with
  | [] => if String.eqb (root p) "" then "." else root p
  | _ => root p +:+ join_slash (parts p)
  end.

(** [p.parent]: the root and the empty relative path are their own parent. *)
Definition Path_parent (p : Path) : Path :=
  {| root := root p; parts := removelast (parts p) |}.

(** ** Collaborators

    The objects the module gets from [pygls], [lsp_utils] and [lsp_jsonrpc],
    and from the interpreter itself. *)

(** [workspace.Document] *)
Record Document : Type := mkDocument {
  uri : string;
  path : option string;
  source : string;
}.

(** Modelled from the spec: [utils.RunResult] is declared in [lsp_utils],
    which is not part of the sources; the specification gives the result
    type its three fields, the third one optional.  The runners build it
    from two positional arguments, which leaves the third one unset. *)
Record RunResult : Type := mkRunResult {
  stdout : string;
  stderr : string;
  exception : option string;
}.

Definition RunResult2 (out err : string) : RunResult :=
  {| stdout := out; stderr := err; exception := None |}.

(** The arguments the three backends share. *)
Record Invocation : Type := mkInvocation {
  argv : list string;
  use_stdin : bool;
  cwd : pyval;
  source_text : option string;
}.

Inductive MessageType : Type := Error | Warning | Info | Log.

#[global] Instance MessageType_eq_dec : EqDecision MessageType.
Proof. solve_decision. Defined.

(** What a runner does to the outside, in order. *)
Inductive Event : Type :=
| show_message_log (message : string) (msg_type : MessageType)
| show_message (message : string) (msg_type : MessageType)
| run_path (call : Invocation)
| run_over_json_rpc (workspace : pyval) (interpreter : list string)
    (module : string) (call : Invocation)
| run_module (module : string) (call : Invocation).

(** What the tool does to [sys.path] while it runs as a module: it changes
    the list object that [sys.path] is bound to in place, or binds
    [sys.path] to a new list. *)
Inductive PathOp : Type :=
| Mutate (f : list string → list string)
| Rebind (l : list string).

(** What [ast.parse(code)] does: it returns, or raises [SyntaxError] (with
    the text of the traceback), or raises something else, as [ValueError]
    for a source with a null character. *)
Inductive ParseResult : Type :=
| Parsed
| ParseSyntaxError (traceback : string)
| ParseRaises (e : exn).

Record Env : Type := mkEnv {
  getcwd : string;
  sys_executable : string;
  LS_SHOW_NOTIFICATION : option string;
  to_fs_path : string → string;
  (** [uris.from_fs_path(path)]: the URI, and the exception it raises
      instead for a path it cannot turn into a URI (one that is only a
      host part, as [//host]), if any.  The working directory of the
      process is a path that has a URI. *)
  from_fs_path : string → string;
  from_fs_path_error : string → option exn;
  repr_list : list string → string;
  ast_parse : string → ParseResult;
  is_stdlib_file : option string → bool;
  is_current_interpreter : string → bool;
  (** [utils.run_path] and [jsonrpc.run_over_json_rpc]: what they return,
      or the exception they raise. *)
  exec_path : Invocation → outcome RunResult;
  exec_rpc : pyval → list string → string → Invocation → outcome RunResult;
  (** The tool run in this process sees the contents of [sys.path]; it
      returns or raises, with the text of the traceback. *)
  exec_module : string → Invocation → list string →
                list PathOp * (RunResult + string);
}.

(** [str(v)] inside an f-string. *)
Definition py_str (env : Env) (v : pyval) : string :=
  match v with
  | VStr s => s
  | VList l => repr_list env l
  end.

Definition TOOL_MODULE : string := "unittest_generator".
Definition TOOL_ARGS : list string := [].

(** ** The settings store *)

Definition dict_default (G : pydict) (k : string) (d : pyval) : pyval :=
  default d (G !! k).

Definition _get_global_defaults (env : Env) (G : pydict) : pydict :=
  list_to_map
    [ ("path", dict_default G "path" (VList []));
      ("interpreter", dict_default G "interpreter" (VList [sys_executable env]));
      ("args", dict_default G "args" (VList []));
      ("importStrategy", dict_default G "importStrategy" (VStr "useBundled"));
      ("showNotifications", dict_default G "showNotifications" (VStr "off")) ].

(** The record [{"cwd": key, "workspaceFS": key, "workspace": ..., **defaults}];
    later entries of a dictionary display win. *)
Definition default_record (env : Env) (G : pydict) (key : string) : pydict :=
  _get_global_defaults env G ∪
  list_to_map [ ("cwd", VStr key); ("workspaceFS", VStr key);
                ("workspace", VStr (from_fs_path env key)) ].

(** The record [{"cwd": key, **setting, "workspaceFS": key}]. *)
Definition setting_record (key : string) (setting : pydict) : pydict :=
  <["workspaceFS" := VStr key]> (setting ∪ {["cwd" := VStr key]}).

(** The [for] loop of [_update_workspace_settings]; the store keeps what
    was assigned before an exception. *)
Fixpoint update_loop (env : Env) (settings : list pydict)
    (W : list (string * pydict)) : outcome unit * list (string * pydict) :=
  match settings with
  | [] => (Ok tt, W)
  | setting :: rest =>
      match setting !! "workspace" with
      | None => (Raise (KeyError "workspace"), W)
      | Some (VList _) => (Raise TypeError, W)
      | Some (VStr u) =>
          let key := to_fs_path env u in
          update_loop env rest (dict_set key (setting_record key setting) W)
      end
  end.

Definition _update_workspace_settings (env : Env) (G : pydict)
    (settings : option (list pydict)) (W : list (string * pydict))
  : outcome unit * list (string * pydict) :=
  match settings with
  | None | Some [] =>
      let key := getcwd env in
      (Ok tt, dict_set key (default_record env G key) W)
  | Some settings => update_loop env settings W
  end.

(** [{s["workspaceFS"] for s in WORKSPACE_SETTINGS.values()}] *)
Fixpoint workspace_set (values : list pydict) : outcome (gset string) :=
  match values with
  | [] => Ok ∅
  | s :: rest =>
      match s !! "workspaceFS" with
      | None => Raise (KeyError "workspaceFS")
      | Some (VList _) => Raise TypeError
      | Some (VStr k) =>
          match workspace_set rest with
          | Ok ws => Ok ({[k]} ∪ ws)
          | Raise e => Raise e
          end
      end
  end.

(** [list(WORKSPACE_SETTINGS.values())[0]] *)
Definition first_value (W : list (string * pydict)) : outcome pydict :=
  match dict_values W with
  | [] => Raise IndexError
  | v :: _ => Ok v
  end.

(** The [while file_path != file_path.parent] loop of
    [_get_settings_by_path], on the components of the path innermost
    first: by [Path_parent_fixpoint] the loop stops when none is left, and
    [.parent] drops the innermost one. *)
Fixpoint settings_walk (W : list (string * pydict)) (ws : gset string)
    (rt : string) (rparts : list string) : outcome pydict :=
  match rparts with
  | [] => first_value W
  | _ :: up =>
      let str_file_path := Path_str (mkPath rt (rev rparts)) in
      if bool_decide (str_file_path ∈ ws) then dict_item str_file_path W
      else settings_walk W ws rt up
  end.

Definition _get_settings_by_path (W : list (string * pydict)) (file_path : Path)
  : outcome pydict :=
  match workspace_set (dict_values W) with
  | Raise e => Raise e
  | Ok ws => settings_walk W ws (root file_path) (rev (parts file_path))
  end.

(** The loop of [_get_document_key], in the same way. *)
Fixpoint key_walk (ws : gset string) (rt : string) (rparts : list string)
  : option string :=
  match rparts with
  | [] => None
  | _ :: up =>
      let s := Path_str (mkPath rt (rev rparts)) in
      if bool_decide (s ∈ ws) then Some s else key_walk ws rt up
  end.

Definition _get_document_key (W : list (string * pydict)) (document : Document)
  : outcome (option string) :=
  match W with
  | [] => Ok None
  | _ =>
      match path document with
      | None => Raise TypeError
      | Some p =>
          let document_workspace := Path_of p in
          match workspace_set (dict_values W) with
          | Raise e => Raise e
          | Ok ws =>
              Ok (key_walk ws (root document_workspace)
                    (rev (parts document_workspace)))
          end
      end
  end.

Definition _get_settings_by_document (env : Env) (G : pydict)
    (W : list (string * pydict)) (document : option Document) : outcome pydict :=
  match document with
  | None => first_value W
  | Some d =>
      match path d with
      | None => first_value W
      | Some p =>
          match _get_document_key W d with
          | Raise e => Raise e
          | Ok None =>
              let key := Path_str (Path_parent (Path_of p)) in
              match from_fs_path_error env key with
              | Some e => Raise e
              | None => Ok (default_record env G key)
              end
          | Ok (Some key) => dict_item key W
          end
      end
  end.

(** ** The state the runners work on *)

Record State : Type := mkState {
  WORKSPACE_SETTINGS : list (string * pydict);
  GLOBAL_SETTINGS : pydict;
  (** The list objects of the process, by identity, and the one [sys.path]
      is bound to. *)
  objects : gmap nat (list string);
  sys_path : nat;
  (** What has been done to the outside, oldest first. *)
  emitted : list Event;
}.

Definition set_objects (o : gmap nat (list string)) (st : State) : State :=
  {| WORKSPACE_SETTINGS := WORKSPACE_SETTINGS st; GLOBAL_SETTINGS := GLOBAL_SETTINGS st;
     objects := o; sys_path := sys_path st; emitted := emitted st |}.

Definition set_sys_path (l : nat) (st : State) : State :=
  {| WORKSPACE_SETTINGS := WORKSPACE_SETTINGS st; GLOBAL_SETTINGS := GLOBAL_SETTINGS st;
     objects := objects st; sys_path := l; emitted := emitted st |}.

Definition add_event (e : Event) (st : State) : State :=
  {| WORKSPACE_SETTINGS := WORKSPACE_SETTINGS st; GLOBAL_SETTINGS := GLOBAL_SETTINGS st;
     objects := objects st; sys_path := sys_path st; emitted := emitted st ++ [e] |}.

(** The contents of the list [sys.path] is bound to. *)
Definition sys_path_value (st : State) : list string :=
  default [] (objects st !! sys_path st).

(** A computation changes the state and returns or raises. *)
Definition M (A : Type) : Type := State → outcome A * State.

#[global] Instance M_ret : MRet M := λ A a st, (Ok a, st).
#[global] Instance M_bind : MBind M := λ A B f m st,
  match m st with
  | (Ok a, st') => f a st'
  | (Raise e, st') => (Raise e, st')
  end.

Definition raise {A} (e : exn) : M A := λ st, (Raise e, st).
Definition lift {A} (o : outcome A) : M A := λ st, (o, st).
Definition emit (e : Event) : M unit := λ st, (Ok tt, add_event e st).

(** [try: body except Exception: handler] *)
Definition try_except {A} (body : M A) (handler : exn → M A) : M A := λ st,
  match body st with
  | (Ok a, st') => (Ok a, st')
  | (Raise e, st') => handler e st'
  end.

(** ** Logging and notification *)

Definition getenv_show (env : Env) : string :=
  default "off" (LS_SHOW_NOTIFICATION env).

Definition log_to_output (message : string) : M unit :=
  emit (show_message_log message Log).

Definition log_error (env : Env) (message : string) : M unit :=
  emit (show_message_log message Error);;
  if bool_decide (getenv_show env ∈ ["onError"; "onWarning"; "always"])
  then emit (show_message message Error) else mret tt.

Definition log_warning (env : Env) (message : string) : M unit :=
  emit (show_message_log message Warning);;
  if bool_decide (getenv_show env ∈ ["onWarning"; "always"])
  then emit (show_message message Warning) else mret tt.

Definition log_always (env : Env) (message : string) : M unit :=
  emit (show_message_log message Info);;
  if bool_decide (getenv_show env ∈ ["always"])
  then emit (show_message message Info) else mret tt.

Definition is_python (env : Env) (code : string) : M bool :=
  match ast_parse env code with
  | Parsed => mret true
  | ParseSyntaxError traceback =>
      log_error env ("Syntax error in code: " +:+ traceback);;
      mret false
  | ParseRaises e => raise e
  end.

(** ** The backends *)

Definition call_run_path (env : Env) (call : Invocation) : M RunResult :=
  emit (run_path call);;
  lift (exec_path env call).

Definition call_run_over_json_rpc (env : Env) (workspace : pyval)
    (interpreter : list string) (module : string) (call : Invocation) : M RunResult :=
  emit (run_over_json_rpc workspace interpreter module call);;
  lift (exec_rpc env workspace interpreter module call).

Definition apply_op (st : State) (op : PathOp) : State :=
  match op with
  | Mutate f => set_objects (alter f (sys_path st) (objects st)) st
  | Rebind l =>
      let n := fresh (dom (objects st)) in
      set_sys_path n (set_objects (<[n := l]> (objects st)) st)
  end.

Definition call_run_module (env : Env) (module : string) (call : Invocation)
  : M RunResult := λ st,
  let st1 := add_event (run_module module call) st in
  let '(ops, r) := exec_module env module call (sys_path_value st1) in
  let st2 := foldl apply_op st1 ops in
  match r with
  | inl result => (Ok result, st2)
  | inr traceback => (Raise (Fault traceback), st2)
  end.

(** [sys.path[:]]: a new list object with the same contents. *)
Definition copy_sys_path : M nat := λ st,
  let n := fresh (dom (objects st)) in
  (Ok n, set_objects (<[n := sys_path_value st]> (objects st)) st).

(** Modelled from the spec: [utils.substitute_attr] is defined in
    [lsp_utils], which is not part of the sources.  The specification has
    the attribute bound to the new value for the duration of the body and
    restored unconditionally afterwards, including on failure. *)
Definition substitute_sys_path {A} (new_value : nat) (body : M A) : M A := λ st,
  let old_value := sys_path st in
  let '(r, st') := body (set_sys_path new_value st) in
  (r, set_sys_path old_value st').

(** [traceback.format_exc(chain=True)] in a handler. *)
Definition format_exc (e : exn) : string :=
  match e with
  | Fault traceback => traceback
  | KeyError k => "KeyError: " +:+ k
  | IndexError => "IndexError"
  | TypeError => "TypeError"
  end.

(** ** The runners *)

#[global] Instance outcome_ret : MRet outcome := λ A a, Ok a.
#[global] Instance outcome_bind : MBind outcome := λ A B f o,
  match o with
  | Ok a => f a
  | Raise e => Raise e
  end.

Definition CR : ascii := ascii_of_nat 13.
Definition LF : ascii := ascii_of_nat 10.
Definition CRLF : string := String CR (String LF EmptyString).

(** [s.replace("\r\n", "\n")] *)
Fixpoint replace_crlf (s : string) : string :=
  match s with
  | EmptyString => EmptyString
  | String c tl =>
      match tl with
      | String d rest =>
          if Ascii.eqb c CR && Ascii.eqb d LF then String LF (replace_crlf rest)
          else String c (replace_crlf tl)
      | EmptyString => String c EmptyString
      end
  end.

(** [" ".join(l)] *)
Definition join_space (l : list string) : string := String.concat " " l.

(** [argv += rhs]: in-place concatenation, defined on lists only. *)
Definition iadd_list (argv : pyval) (rhs : list string) : outcome (list string) :=
  match argv with
  | VList a => Ok (a ++ rhs)
  | VStr _ => Raise TypeError
  end.

Definition as_list (v : pyval) : outcome (list string) :=
  match v with
  | VList a => Ok a
  | VStr _ => Raise TypeError
  end.

(** The value of [document.path] inside an f-string. *)
Definition str_path (p : option string) : string := default "None" p.

(** The three ways of running the tool, as the flags [use_path] and
    [use_rpc] encode them. *)
Inductive Strategy : Type := DirectPath | CrossRuntimeRpc | InProcessModule.

Definition strategy_of (use_path use_rpc : bool) : Strategy :=
  if use_path then DirectPath
  else if use_rpc then CrossRuntimeRpc else InProcessModule.

(** The choice of the backend in [_run_tool_on_document]: the flags
    [use_path] and [use_rpc], and the initial value of [argv]. *)
Definition select_on_document (env : Env) (settings : pydict)
  : outcome (bool * bool * pyval) :=
  p ← getitem settings "path";
  if truthy p then mret (true, false, p)
  else
    i ← getitem settings "interpreter";
    if truthy i then
      i0 ← item0 i;
      if negb (is_current_interpreter env i0)
      then mret (false, true, VList [TOOL_MODULE])
      else mret (false, false, VList [TOOL_MODULE])
    else mret (false, false, VList [TOOL_MODULE]).

(** The same choice in [_run_tool], which tests the lengths. *)
Definition select_run_tool (env : Env) (settings : pydict)
  : outcome (bool * bool * pyval) :=
  p ← getitem settings "path";
  if len_pos p then mret (true, false, p)
  else
    i ← getitem settings "interpreter";
    if len_pos i then
      i0 ← item0 i;
      if negb (is_current_interpreter env i0)
      then mret (false, true, VList [TOOL_MODULE])
      else mret (false, false, VList [TOOL_MODULE])
    else mret (false, false, VList [TOOL_MODULE]).

(** [copy.deepcopy(_get_settings_by_document(document))]: the record is a
    value here, so the copy is the record. *)
Definition get_settings (env : Env) (document : option Document) : M pydict := λ st,
  (_get_settings_by_document env (GLOBAL_SETTINGS st) (WORKSPACE_SETTINGS st) document, st).

(** The RPC branch after the call: a result with an exception is logged
    and rebuilt from its two output fields. *)
Definition rpc_result (env : Env) (result : RunResult) : M RunResult :=
  match exception result with
  | Some e =>
      if negb (String.eqb e "") then
        log_error env e;;
        mret (RunResult2 (stdout result) (stderr result))
      else if negb (String.eqb (stderr result) "") then
        log_to_output (stderr result);; mret result
      else mret result
  | None =>
      if negb (String.eqb (stderr result) "") then
        log_to_output (stderr result);; mret result
      else mret result
  end.

Definition log_stderr (result : RunResult) : M unit :=
  if negb (String.eqb (stderr result) "") then log_to_output (stderr result)
  else mret tt.

(** The in-process branch: the tool runs while [sys.path] is bound to a
    copy; an exception is logged and raised again. *)
Definition run_in_process (env : Env) (call : Invocation) : M RunResult :=
  new_value ← copy_sys_path;
  substitute_sys_path new_value
    (try_except (call_run_module env TOOL_MODULE call)
       (λ e, log_error env (format_exc e);; raise e)).

Definition _run_tool_on_document (env : Env) (document : Document)
    (use_stdin : bool) (extra_args : option (list string)) : M (option RunResult) :=
  let extra_args := default [] extra_args in
  if String.prefix "vscode-notebook-cell" (uri document) then mret None
  else
    python ← is_python env (source document);
    if negb python then
      log_warning env ("Skipping non python code: " +:+ str_path (path document));;
      mret None
    else if is_stdlib_file env (path document) then mret None
    else
      settings ← get_settings env (Some document);
      code_workspace ← lift (getitem settings "workspaceFS");
      cwd ← lift (getitem settings "cwd");
      selected ← lift (select_on_document env settings);
      let '(use_path, use_rpc, argv) := (selected : bool * bool * pyval) in
      args ← lift (getitem settings "args");
      rhs ← lift (a ← as_list args; mret (TOOL_ARGS ++ a ++ extra_args));
      argv ← lift (iadd_list argv rhs);
      argv ← (if use_stdin then mret argv
              else match path document with
                   | Some p => mret (argv ++ [p])
                   | None => raise TypeError
                   end);
      result ←
        (if use_path then
           log_to_output (join_space argv);;
           log_to_output ("CWD Server: " +:+ py_str env cwd);;
           result ← call_run_path env
             (mkInvocation argv use_stdin cwd (Some (replace_crlf (source document))));
           log_stderr result;;
           mret result
         else if use_rpc then
           interpreter ← lift (i ← getitem settings "interpreter"; as_list i);
           log_to_output (join_space (interpreter ++ ["-m"] ++ argv));;
           log_to_output ("CWD Linter: " +:+ py_str env cwd);;
           result ← call_run_over_json_rpc env code_workspace interpreter TOOL_MODULE
             (mkInvocation argv use_stdin cwd (Some (source document)));
           rpc_result env result
         else
           log_to_output (join_space ([sys_executable env; "-m"] ++ argv));;
           log_to_output ("CWD Linter: " +:+ py_str env cwd);;
           result ← run_in_process env
             (mkInvocation argv use_stdin cwd (Some (source document)));
           log_stderr result;;
           mret result);
      log_to_output (uri document +:+ " :" +:+ CRLF +:+ stdout result);;
      mret (Some result).

Definition _run_tool (env : Env) (extra_args : list string) : M RunResult :=
  settings ← get_settings env None;
  code_workspace ← lift (getitem settings "workspaceFS");
  cwd ← lift (getitem settings "workspaceFS");
  selected ← lift (select_run_tool env settings);
  let '(use_path, use_rpc, argv) := (selected : bool * bool * pyval) in
  argv ← lift (iadd_list argv extra_args);
  result ←
    (if use_path then
       log_to_output (join_space argv);;
       log_to_output ("CWD Server: " +:+ py_str env cwd);;
       result ← call_run_path env (mkInvocation argv true cwd None);
       log_stderr result;;
       mret result
     else if use_rpc then
       interpreter ← lift (i ← getitem settings "interpreter"; as_list i);
       log_to_output (join_space (interpreter ++ ["-m"] ++ argv));;
       log_to_output ("CWD Linter: " +:+ py_str env cwd);;
       result ← call_run_over_json_rpc env code_workspace interpreter TOOL_MODULE
         (mkInvocation argv true cwd None);
       rpc_result env result
     else
       log_to_output (join_space ([sys_executable env; "-m"] ++ argv));;
       log_to_output ("CWD Linter: " +:+ py_str env cwd);;
       result ← run_in_process env (mkInvocation argv true cwd None);
       log_stderr result;;
       mret result);
  log_to_output (CRLF +:+ stdout result +:+ CRLF);;
  mret result.

(** ** Properties of stores, payloads and traces *)

(** Every record of the store names the key it is stored under. *)
Definition keyed_by (field : string) (entry : string * pydict) : Prop :=
  entry.2 !! field = Some (VStr entry.1).

Definition store_keyed (W : list (string * pydict)) : Prop :=
  Forall (keyed_by "workspaceFS") W.

Definition store_inv (W : list (string * pydict)) : Prop :=
  Forall (λ entry, keyed_by "workspaceFS" entry ∧ keyed_by "cwd" entry) W.

(** The fields a configuration object of the payload carries. *)
Definition inbound_fields : gset string :=
  {[ "workspace"; "path"; "interpreter"; "args"; "importStrategy";
     "showNotifications" ]}.

Definition inbound_only (settings : list pydict) : Prop :=
  Forall (λ setting : pydict, dom setting ⊆ inbound_fields) settings.

(** The workspace URI of a configuration object, and its store key: the
    file-system path of that URI. *)
Definition workspace_uri (setting : pydict) : option string :=
  match setting !! "workspace" with
  | Some (VStr u) => Some u
  | _ => None
  end.

Definition setting_key (env : Env) (setting : pydict) : option string :=
  to_fs_path env <$> workspace_uri setting.

Definition payload_keys (env : Env) (settings : list pydict) : list string :=
  omap (setting_key env) settings.

Definition has_workspace (settings : list pydict) : Prop :=
  Forall (λ setting : pydict, is_Some (workspace_uri setting)) settings.

(** A full-store replace, as the specification words it: afterwards the
    roots of the store are exactly those of the payload. *)
Definition full_replace (env : Env) (settings : list pydict)
    (W' : list (string * pydict)) : Prop :=
  ∀ k, k ∈ dict_keys W' ↔ k ∈ payload_keys env settings.

(** The walk of [_get_document_key] as the specification words it: it
    starts at the directory of the document. *)
Definition spec_document_key (W : list (string * pydict)) (document : Document)
  : outcome (option string) :=
  match W with
  | [] => Ok None
  | _ =>
      match path document with
      | None => Raise TypeError
      | Some p =>
          let directory := Path_parent (Path_of p) in
          match workspace_set (dict_values W) with
          | Raise e => Raise e
          | Ok ws => Ok (key_walk ws (root directory) (rev (parts directory)))
          end
      end
  end.

(** The paths the loops compare with the workspace roots: the path itself,
    then each [.parent], as long as the path differs from its parent. *)
Definition candidates (p : Path) : list Path :=
  (λ n, Nat.iter n Path_parent p) <$> seq 0 (length (parts p)).

(** The paths a walk compares, for a root and components given innermost
    first. *)
Definition walk_paths (rt : string) (rparts : list string) : list Path :=
  (λ n, mkPath rt (rev (drop n rparts))) <$> seq 0 (length rparts).

(** The initial value of [argv]: the tool path, or the module name. *)
Definition base_argv (tool_path : list string) : list string :=
  match tool_path with [] => [TOOL_MODULE] | _ => tool_path end.

(** The record makes the runners use the JSON-RPC backend: no tool path,
    and an interpreter that is not the current one. *)
Definition selects_rpc (env : Env) (settings : pydict) (interpreter : list string) : Prop :=
  settings !! "path" = Some (VList []) ∧
  settings !! "interpreter" = Some (VList interpreter) ∧
  ∃ i0, head interpreter = Some i0 ∧ is_current_interpreter env i0 = false.

(** The response of the RPC carries a remote exception. *)
Definition remote_exception (response : RunResult) (e : string) : Prop :=
  exception response = Some e ∧ e ≠ "".

(** The backend calls of a trace. *)
Definition backend_call (e : Event) : option (Strategy * Invocation) :=
  match e with
  | run_path call => Some (DirectPath, call)
  | run_over_json_rpc _ _ _ call => Some (CrossRuntimeRpc, call)
  | run_module _ call => Some (InProcessModule, call)
  | _ => None
  end.

Definition backend_calls (events : list Event) : list (Strategy * Invocation) :=
  omap backend_call events.

(** The messages logged as warnings in a trace. *)
Definition warning_of (e : Event) : option string :=
  match e with
  | show_message_log message Warning => Some message
  | _ => None
  end.

Definition warnings (events : list Event) : list string := omap warning_of events.

(** The three filters of [_run_tool_on_document] let the document through. *)
Definition passes_filters (env : Env) (document : Document) : Prop :=
  String.prefix "vscode-notebook-cell" (uri document) = false ∧
  ast_parse env (source document) = Parsed ∧
  is_stdlib_file env (path document) = false.

(** The strategy the priority order of the specification gives for a tool
    path and an interpreter path. *)
Definition priority (env : Env) (tool_path interpreter_path : list string) : Strategy :=
  match tool_path, interpreter_path with
  | _ :: _, _ => DirectPath
  | [], i0 :: _ => if is_current_interpreter env i0 then InProcessModule else CrossRuntimeRpc
  | [], [] => InProcessModule
  end.

(** A computation leaves [sys.path] bound to the object it was bound to,
    with the contents it had. *)
Definition path_frame (st st' : State) : Prop :=
  sys_path st' = sys_path st ∧
  objects st' !! sys_path st = objects st !! sys_path st ∧
  dom (objects st) ⊆ dom (objects st').

Definition keeps_sys_path {A} (m : M A) : Prop :=
  ∀ st, is_Some (objects st !! sys_path st) → path_frame st (m st).2.

(** ** A concrete host

    Used to run the definitions on examples. *)
Module Sample.

Definition strip_scheme (u : string) : string :=
  if String.prefix "file://" u then String.substring 7 (String.length u - 7) u else u.

Definition tool_module (call : Invocation) (visible : list string)
  : list PathOp * (RunResult + string) :=
  if bool_decide ("--crash" ∈ argv call)
  then ([Mutate (λ l, "/tmp/injected" :: l)], inr "Traceback: tool crashed")
  else ([Mutate (λ l, "/tmp/injected" :: l); Rebind ["/tmp/only"]],
        inl (RunResult2 (join_space (argv call)) "")).

Definition env : Env := {|
  getcwd := "/srv";
  sys_executable := "/usr/bin/python3";
  LS_SHOW_NOTIFICATION := None;
  to_fs_path := strip_scheme;
  from_fs_path := λ p, "file://" +:+ p;
  from_fs_path_error := λ p,
    if String.eqb p "//host" then Some (Fault "ValueError: substring not found")
    else None;
  repr_list := λ l, "[" +:+ String.concat ", " l +:+ "]";
  ast_parse := λ code,
    if String.eqb code "def (" then ParseSyntaxError "SyntaxError: invalid syntax"
    else if String.prefix (String (ascii_of_nat 0) "") code
    then ParseRaises (Fault "ValueError: source code string cannot contain null bytes")
    else Parsed;
  is_stdlib_file := λ p,
    match p with Some p => String.prefix "/usr/lib/python3" p | None => false end;
  is_current_interpreter := String.eqb "/usr/bin/python3";
  exec_path := λ call, Ok (RunResult2 "ran" "");
  exec_rpc := λ _ _ _ call,
    Ok {| stdout := "partial output"; stderr := "remote warning";
          exception := Some "Traceback: remote failure" |};
  exec_module := λ _, tool_module;
|}.

Definition config (workspace : string) (p i a : list string) : pydict :=
  list_to_map [ ("workspace", VStr workspace); ("path", VList p);
                ("interpreter", VList i); ("args", VList a);
                ("importStrategy", VStr "useBundled");
                ("showNotifications", VStr "off") ].

(** The store after a payload has been applied to an empty one. *)
Definition store_of (payload : list pydict) : list (string * pydict) :=
  (_update_workspace_settings env ∅ (Some payload) []).2.

Definition state_of (W : list (string * pydict)) : State := {|
  WORKSPACE_SETTINGS := W;
  GLOBAL_SETTINGS := ∅;
  objects := {[ 0 := ["/srv/libs"; "/usr/lib/python3"] ]};
  sys_path := 0;
  emitted := [];
|}.

End Sample.

(** ** The rest of the module

    The functions of the module that the runners and the settings store
    rest on or are called from: the set-up of [sys.path] at import time and
    the [initialize] handler. *)

(** [update_sys_path(path_to_add, strategy)]; [isdir] is [os.path.isdir].
    [insert] and [append] change the list object [sys.path] is bound to. *)
Definition update_sys_path (isdir : string → bool) (path_to_add strategy : string)
  : M unit := λ st,
  if bool_decide (path_to_add ∉ sys_path_value st) && isdir path_to_add then
    if String.eqb strategy "useBundled" then
      (Ok tt, apply_op st (Mutate (λ l, path_to_add :: l)))
    else if String.eqb strategy "fromEnvironment" then
      (Ok tt, apply_op st (Mutate (λ l, l ++ [path_to_add])))
    else (Ok tt, st)
  else (Ok tt, st).

Definition set_WORKSPACE_SETTINGS (W : list (string * pydict)) (st : State) : State :=
  {| WORKSPACE_SETTINGS := W; GLOBAL_SETTINGS := GLOBAL_SETTINGS st;
     objects := objects st; sys_path := sys_path st; emitted := emitted st |}.

Definition set_GLOBAL_SETTINGS (G : pydict) (st : State) : State :=
  {| WORKSPACE_SETTINGS := WORKSPACE_SETTINGS st; GLOBAL_SETTINGS := G;
     objects := objects st; sys_path := sys_path st; emitted := emitted st |}.

(** [params.initialization_options]: the two keys [initialize] reads, each
    present or not; the value of ["settings"] may be [None]. *)
Record InitializationOptions : Type := mkInitializationOptions {
  opt_globalSettings : option pydict;
  opt_settings : option (option (list pydict));
}.

(** [json.dumps(..., indent=4, ensure_ascii=False)] on the two values
    [initialize] prints. *)
Record Json : Type := mkJson {
  dumps_settings : option (list pydict) → string;
  dumps_dict : pydict → string;
}.

(** [GLOBAL_SETTINGS.update] with the entries of [d] as keywords: the keys
    of [d] win. *)
Definition update_global_settings (d : pydict) : M unit := λ st,
  (Ok tt, set_GLOBAL_SETTINGS (d ∪ GLOBAL_SETTINGS st) st).

(** The call of [_update_workspace_settings] on the store of the module. *)
Definition call_update_workspace_settings (env : Env)
    (settings : option (list pydict)) : M unit := λ st,
  let '(o, W) := _update_workspace_settings env (GLOBAL_SETTINGS st) settings
                   (WORKSPACE_SETTINGS st) in
  (o, set_WORKSPACE_SETTINGS W st).

Definition initialize (env : Env) (json : Json) (options : InitializationOptions)
  : M unit :=
  log_to_output ("CWD Server: " +:+ getcwd env);;
  paths ← (λ st, (Ok (String.concat (CRLF +:+ "   ") (sys_path_value st)), st));
  log_to_output ("sys.path used to run Server:" +:+ CRLF +:+ "   " +:+ paths);;
  update_global_settings (default ∅ (opt_globalSettings options));;
  settings ← lift (match opt_settings options with
                   | Some settings => Ok settings
                   | None => Raise (KeyError "settings")
                   end);
  call_update_workspace_settings env settings;;
  log_to_output ("Settings used to run Server:" +:+ CRLF +:+
                 dumps_settings json settings +:+ CRLF);;
  G ← (λ st, (Ok (GLOBAL_SETTINGS st), st));
  log_to_output ("Global settings:" +:+ CRLF +:+ dumps_dict json G +:+ CRLF).

(** The configuration object of a payload that decides the record of a
    root: the last one that names it. *)
Definition last_setting (env : Env) (settings : list pydict) (k : string)
  : option pydict :=
  last (filter (λ setting, setting_key env setting = Some k) settings).

(** The notifications shown to the user in a trace. *)
Definition notification_of (e : Event) : option (string * MessageType) :=
  match e with
  | show_message message msg_type => Some (message, msg_type)
  | _ => None
  end.

Definition notifications (events : list Event) : list (string * MessageType) :=
  omap notification_of events.

(** The state of the module when it has just been imported: both
    dictionaries are empty. *)
Definition fresh_module (o : gmap nat (list string)) (l : nat) : State :=
  {| WORKSPACE_SETTINGS := []; GLOBAL_SETTINGS := ∅; objects := o; sys_path := l;
     emitted := [] |}.

(** The call [_run_tool] builds for a tool path, and the one
    [_run_tool_on_document] builds for a tool path and the arguments of the
    record. *)
Definition tool_call (extra p : list string) (ws : pyval) : Invocation :=
  {| argv := base_argv p ++ extra; use_stdin := true; cwd := ws; source_text := None |}.

Definition document_call (document : Document) (use_stdin : bool)
    (extra : option (list string)) (p a : list string) (cwd : pyval) : Invocation :=
  {| argv := base_argv p ++ TOOL_ARGS ++ a ++ default [] extra ++
             (if use_stdin then [] else option_list (path document));
     use_stdin := use_stdin;
     cwd := cwd;
     source_text := Some (match p with
                          | [] => source document
                          | _ => replace_crlf (source document)
                          end) |}.

(** What the backend of a strategy answers to a call, and the event of the
    call; the tool run as a module sees the contents [visible] of
    [sys.path]. *)
Definition backend_answer (env : Env) (strategy : Strategy) (ws : pyval)
    (interpreter : list string) (call : Invocation) (visible : list string)
  : outcome RunResult :=
  match strategy with
  | DirectPath => exec_path env call
  | CrossRuntimeRpc => exec_rpc env ws interpreter TOOL_MODULE call
  | InProcessModule =>
      match (exec_module env TOOL_MODULE call visible).2 with
      | inl result => Ok result
      | inr traceback => Raise (Fault traceback)
      end
  end.

Definition call_event (strategy : Strategy) (ws : pyval) (interpreter : list string)
    (call : Invocation) : Event :=
  match strategy with
  | DirectPath => run_path call
  | CrossRuntimeRpc => run_over_json_rpc ws interpreter TOOL_MODULE call
  | InProcessModule => run_module TOOL_MODULE call
  end.

(** The events of [log_error]. *)
Definition error_events (env : Env) (message : string) : list Event :=
  show_message_log message Error ::
  (if bool_decide (getenv_show env ∈ ["onError"; "onWarning"; "always"])
   then [show_message message Error] else []).

(** The result carries no exception that Python takes for true. *)
Definition no_exception (result : RunResult) : Prop :=
  match exception result with
  | Some e => e = ""
  | None => True
  end.

(** ** A host whose out-of-process backends fail

    The executable cannot be started and the RPC channel is down. *)
Module Broken.

Definition env : Env := {|
  getcwd := "/srv";
  sys_executable := "/usr/bin/python3";
  LS_SHOW_NOTIFICATION := Some "onWarning";
  to_fs_path := Sample.strip_scheme;
  from_fs_path := λ p, "file://" +:+ p;
  from_fs_path_error := λ _, None;
  repr_list := λ l, "[" +:+ String.concat ", " l +:+ "]";
  ast_parse := λ _, Parsed;
  is_stdlib_file := λ _, false;
  is_current_interpreter := String.eqb "/usr/bin/python3";
  exec_path := λ _, Raise (Fault "FileNotFoundError");
  exec_rpc := λ _ _ _ _, Raise (Fault "Failed to run over JSON-RPC.");
  exec_module := λ _ call _, ([], inl (RunResult2 "" "deprecated option"));
|}.

End Broken.

(** The text has a carriage return directly followed by a line feed. *)
Fixpoint has_crlf (s : string) : bool :=
  match s with
  | EmptyString => false
  | String c tl =>
      match tl with
      | String d _ => (Ascii.eqb c CR && Ascii.eqb d LF) || has_crlf tl
      | EmptyString => false
      end
  end.

(** The number of occurrences of a character. *)
Fixpoint count_char (a : ascii) (s : string) : nat :=
  match s with
  | EmptyString => 0
  | String c tl => (if Ascii.eqb c a then 1 else 0) + count_char a tl
  end.

(** The keys of the resolved record that the runners index, in the order
    in which they read them: [interpreter] is read only when the tool path
    is empty, and [_run_tool] reads neither [cwd] nor [args]. *)
Definition keys_read_on_document (settings : pydict) : list string :=
  ["workspaceFS"; "cwd"; "path"] ++
  match settings !! "path" with
  | Some p => if truthy p then [] else ["interpreter"]
  | None => []
  end ++ ["args"].

Definition keys_read_run_tool (settings : pydict) : list string :=
  ["workspaceFS"; "path"] ++
  match settings !! "path" with
  | Some p => if len_pos p then [] else ["interpreter"]
  | None => []
  end.

Fixpoint first_missing (settings : pydict) (keys : list string) : option string :=
  match keys with
  | [] => None
  | k :: rest =>
      match settings !! k with
      | None => Some k
      | Some _ => first_missing settings rest
      end
  end.

(** The documents for which [_get_settings_by_document] has a record to
    return on a populated store: one under no workspace root needs a
    directory that [uris.from_fs_path] turns into a URI. *)
Definition directory_has_uri (env : Env) (W : list (string * pydict))
    (document : option Document) : Prop :=
  ∀ d p, document = Some d → path d = Some p →
    _get_document_key W d = Ok None →
    from_fs_path_error env (Path_str (Path_parent (Path_of p))) = None.

(** A computation only appends to the trace, and calls no backend
    ([calls_none]) or at most one ([calls_one]). *)
Definition calls_none {A} (m : M A) : Prop :=
  ∀ st, ∃ events,
    emitted (m st).2 = emitted st ++ events ∧ backend_calls events = [].

Definition calls_one {A} (m : M A) : Prop :=
  ∀ st, ∃ events,
    emitted (m st).2 = emitted st ++ events ∧
    (List.length (backend_calls events) ≤ 1)%nat.

(** * Properties *)

(** ** Paths *)

Lemma Path_parent_fixpoint (p : Path) : Path_parent p = p ↔ parts p = [].
Proof.
  destruct p as [r ps]; unfold Path_parent; simpl. split.
  - intros H. injection H as H. destruct ps as [|x ps _] using rev_ind; [done|].
    rewrite removelast_last in H.
    apply (f_equal length) in H. rewrite length_app in H. simpl in H. lia.
  - intros ->. done.
Qed.

Example Path_str_of : Path_str (Path_of "/a//b/./c/file.x") = "/a/b/c/file.x".
Proof. reflexivity. Qed.

Example Path_parent_root : Path_parent (Path_of "/") = Path_of "/".
Proof. reflexivity. Qed.

Lemma iter_Path_parent (n : nat) (p : Path) :
  Nat.iter n Path_parent p = mkPath (root p) (rev (drop n (rev (parts p)))).
Proof.
  induction n as [|n IH]; simpl.
  - rewrite drop_0, rev_involutive. by destruct p.
  - rewrite IH. unfold Path_parent; simpl. f_equal.
    replace (S n) with (n + 1) by lia. rewrite <- drop_drop.
    destruct (drop n (rev (parts p))) as [|x l]; [done|].
    simpl. by rewrite removelast_last, drop_0.
Qed.

(** ** Insertion-ordered dictionaries *)

Section DictFacts.
Context {V : Type}.
Implicit Types (d : list (string * V)) (k : string) (v : V).

Lemma dict_get_set_eq d k v : dict_get k (dict_set k v d) = Some v.
Proof.
  induction d as [|[k' v'] d IH]; simpl.
  - by rewrite decide_True.
  - case_decide; simpl; [by rewrite decide_True|]. by rewrite decide_False.
Qed.

Lemma dict_get_set_ne d k k' v :
  k ≠ k' → dict_get k' (dict_set k v d) = dict_get k' d.
Proof.
  intros Hne. induction d as [|[k0 v0] d IH]; simpl.
  - by rewrite decide_False.
  - destruct (decide (k = k0)) as [->|]; simpl.
    + by rewrite !decide_False.
    + case_decide; [done|]. apply IH.
Qed.

Lemma dict_keys_set d k v :
  dict_keys (dict_set k v d) =
  if decide (k ∈ dict_keys d) then dict_keys d else dict_keys d ++ [k].
Proof.
  unfold dict_keys. induction d as [|[k0 v0] d IH].
  - rewrite decide_False; [done|]. by intros ?%elem_of_nil.
  - cbn [dict_set]. destruct (decide (k = k0)) as [->|Hne].
    + rewrite !fmap_cons. cbn [fst]. rewrite decide_True; [done|]. left.
    + rewrite !fmap_cons, IH. cbn [fst].
      destruct (decide (k ∈ d.*1)) as [Hin|Hnin].
      * rewrite decide_True; [done|]. by right.
      * rewrite decide_False; [done|]. by intros [?|?]%elem_of_cons.
Qed.

Lemma dict_keys_set_elem d k k' v :
  k' ∈ dict_keys (dict_set k v d) ↔ k' = k ∨ k' ∈ dict_keys d.
Proof.
  rewrite dict_keys_set. case_decide.
  - split; [by right|]. by intros [->|?].
  - rewrite elem_of_app, list_elem_of_singleton. tauto.
Qed.

Lemma dict_keys_set_NoDup d k v :
  NoDup (dict_keys d) → NoDup (dict_keys (dict_set k v d)).
Proof.
  intros Hnd. rewrite dict_keys_set. case_decide; [done|].
  apply NoDup_app. split_and!; [done| |apply NoDup_singleton].
  intros x Hx ->%list_elem_of_singleton. done.
Qed.

Lemma dict_get_Some_elem d k v : dict_get k d = Some v → (k, v) ∈ d.
Proof.
  induction d as [|[k0 v0] d IH]; simpl; [done|].
  case_decide as Hk.
  - intros [= ->]. subst. left.
  - intros ?. right. by apply IH.
Qed.

Lemma dict_get_is_Some d k : is_Some (dict_get k d) ↔ k ∈ dict_keys d.
Proof.
  unfold dict_keys. induction d as [|[k0 v0] d IH]; simpl.
  - split; [by intros [? ?]|by intros ?%elem_of_nil].
  - case_decide as Hk.
    + subst. split; [left|eauto].
    + rewrite IH. split; [by right|]. by intros [?|?]%elem_of_cons.
Qed.

Lemma elem_of_dict_set d k v (e : string * V) :
  e ∈ dict_set k v d → e = (k, v) ∨ e ∈ d.
Proof.
  induction d as [|[k0 v0] d IH]; simpl.
  - intros ?%list_elem_of_singleton. by left.
  - case_decide.
    + intros [->|?]%elem_of_cons; [by left|]. right. by right.
    + intros [->|?]%elem_of_cons; [right; left|].
      destruct IH as [?|?]; [done|by left|]. right. by right.
Qed.
End DictFacts.

(** ** The settings store *)

Lemma default_record_lookup_workspaceFS env G key :
  default_record env G key !! "workspaceFS" = Some (VStr key).
Proof. by vm_compute. Qed.

Lemma default_record_lookup_cwd env G key :
  default_record env G key !! "cwd" = Some (VStr key).
Proof. by vm_compute. Qed.

Lemma setting_record_lookup_workspaceFS key setting :
  setting_record key setting !! "workspaceFS" = Some (VStr key).
Proof. unfold setting_record. apply lookup_insert_eq. Qed.

Lemma setting_record_lookup_cwd key setting :
  setting !! "cwd" = None → setting_record key setting !! "cwd" = Some (VStr key).
Proof.
  intros Hcwd. unfold setting_record.
  rewrite lookup_insert_ne by done.
  rewrite lookup_union_r by done. apply lookup_singleton_eq.
Qed.

(** A configuration object that has a ["cwd"] of its own keeps it. *)
Lemma setting_record_lookup_cwd_own key setting v :
  setting !! "cwd" = Some v → setting_record key setting !! "cwd" = Some v.
Proof.
  intros Hcwd. unfold setting_record.
  rewrite lookup_insert_ne by done. by apply lookup_union_Some_l.
Qed.

Lemma inbound_no_cwd (setting : pydict) :
  dom setting ⊆ inbound_fields → setting !! "cwd" = None.
Proof.
  intros Hdom. apply not_elem_of_dom. intros Hin%Hdom.
  assert ("cwd" ∉ inbound_fields) as Hout by compute_done. done.
Qed.

Lemma store_inv_set W key r :
  store_inv W → r !! "workspaceFS" = Some (VStr key) → r !! "cwd" = Some (VStr key) →
  store_inv (dict_set key r W).
Proof.
  unfold store_inv. rewrite !Forall_forall. intros HW Hfs Hcwd e He.
  apply elem_of_dict_set in He as [->|He]; [done|by apply HW].
Qed.

Lemma store_keyed_set W key r :
  store_keyed W → r !! "workspaceFS" = Some (VStr key) →
  store_keyed (dict_set key r W).
Proof.
  unfold store_keyed. rewrite !Forall_forall. intros HW Hfs e He.
  apply elem_of_dict_set in He as [->|He]; [done|by apply HW].
Qed.

Lemma update_loop_store_inv env settings W :
  store_inv W → inbound_only settings → store_inv (update_loop env settings W).2.
Proof.
  revert W. induction settings as [|setting rest IH]; intros W HW Hin; simpl; [done|].
  apply Forall_cons in Hin as [Hdom Hrest].
  destruct (setting !! "workspace") as [[u|l]|]; simpl; [|done..].
  apply IH; [|done]. apply store_inv_set; [done| |].
  - apply setting_record_lookup_workspaceFS.
  - apply setting_record_lookup_cwd. by apply inbound_no_cwd.
Qed.

Lemma update_loop_store_keyed env settings W :
  store_keyed W → store_keyed (update_loop env settings W).2.
Proof.
  revert W. induction settings as [|setting rest IH]; intros W HW; simpl; [done|].
  destruct (setting !! "workspace") as [[u|l]|]; simpl; [|done..].
  apply IH. apply store_keyed_set; [done|]. apply setting_record_lookup_workspaceFS.
Qed.

Lemma update_store_keyed env G settings W :
  store_keyed W → store_keyed (_update_workspace_settings env G settings W).2.
Proof.
  intros HW. destruct settings as [[|s l]|]; simpl.
  - apply store_keyed_set; [done|]. apply default_record_lookup_workspaceFS.
  - pose proof (update_loop_store_keyed env (s :: l) W HW) as H. by simpl in H.
  - apply store_keyed_set; [done|]. apply default_record_lookup_workspaceFS.
Qed.

Lemma update_store_inv env G (settings : option (list pydict)) W :
  store_inv W → inbound_only (default [] settings) →
  store_inv (_update_workspace_settings env G settings W).2.
Proof.
  intros HW Hin. destruct settings as [[|s l]|]; simpl.
  - apply store_inv_set; [done| |].
    + apply default_record_lookup_workspaceFS.
    + apply default_record_lookup_cwd.
  - pose proof (update_loop_store_inv env (s :: l) W HW Hin) as H. by simpl in H.
  - apply store_inv_set; [done| |].
    + apply default_record_lookup_workspaceFS.
    + apply default_record_lookup_cwd.
Qed.

(** The store after a sequence of updates, starting from the empty store
    of the module. *)
Lemma updates_store_inv env G (payloads : list (option (list pydict))) :
  Forall (λ settings, inbound_only (default [] settings)) payloads →
  store_inv (foldl (λ W settings, (_update_workspace_settings env G settings W).2)
               [] payloads).
Proof.
  assert (store_inv []) as Hnil by constructor.
  revert Hnil. generalize (@nil (string * pydict)) as W.
  induction payloads as [|settings payloads IH]; intros W HW Hall; simpl; [done|].
  apply Forall_cons in Hall as [Hin Hall]. apply IH; [|done].
  by apply update_store_inv.
Qed.

(** C10: whatever payload of configuration objects with the inbound fields
    only (workspace, path, interpreter, args, importStrategy,
    showNotifications) the settings update is called with, it preserves the
    invariant that every record stored under a key [k] has
    [record["workspaceFS"] == k] and [record["cwd"] == k]; so the invariant
    holds after any sequence of such calls on the store of the module,
    which starts empty. *)
Theorem update_preserves_store_inv env G (settings : option (list pydict)) W :
  store_inv W →
  inbound_only (default [] settings) →
  store_inv (_update_workspace_settings env G settings W).2 ∧
  ∀ payloads : list (option (list pydict)),
    Forall (λ settings, inbound_only (default [] settings)) payloads →
    store_inv (foldl (λ W settings, (_update_workspace_settings env G settings W).2)
                 [] payloads).
Proof.
  intros HW Hin. split; [by apply update_store_inv|apply updates_store_inv].
Qed.

Lemma update_preserves_store_inv_witness :
  store_inv
    (_update_workspace_settings Sample.env ∅
       (Some [Sample.config "file:///a/b" [] ["/opt/py"] ["--check"];
              Sample.config "file:///c" ["/usr/bin/tool"] [] []])
       (Sample.store_of [Sample.config "file:///a" [] [] []])).2.
Proof.
  apply (update_preserves_store_inv Sample.env ∅
           (Some [Sample.config "file:///a/b" [] ["/opt/py"] ["--check"];
                  Sample.config "file:///c" ["/usr/bin/tool"] [] []])
           (Sample.store_of [Sample.config "file:///a" [] [] []])).
  - repeat constructor.
  - repeat constructor; compute_done.
Defined.

Lemma update_loop_cons env setting rest W u :
  workspace_uri setting = Some u →
  update_loop env (setting :: rest) W =
  update_loop env rest
    (dict_set (to_fs_path env u) (setting_record (to_fs_path env u) setting) W).
Proof.
  unfold workspace_uri. simpl.
  by destruct (setting !! "workspace") as [[?|?]|]; intros [= ->].
Qed.

Lemma payload_keys_cons env setting rest u :
  workspace_uri setting = Some u →
  payload_keys env (setting :: rest) = to_fs_path env u :: payload_keys env rest.
Proof. intros Hu. unfold payload_keys, setting_key. simpl. by rewrite Hu. Qed.

Lemma update_loop_ok env settings W :
  has_workspace settings → (update_loop env settings W).1 = Ok tt.
Proof.
  revert W. induction settings as [|setting rest IH]; intros W Hws; [done|].
  apply Forall_cons in Hws as [[u Hu] Hrest].
  rewrite (update_loop_cons _ _ _ _ _ Hu). by apply IH.
Qed.

Lemma update_loop_keys env settings W k :
  has_workspace settings →
  k ∈ dict_keys (update_loop env settings W).2 ↔
  k ∈ dict_keys W ∨ k ∈ payload_keys env settings.
Proof.
  revert W. induction settings as [|setting rest IH]; intros W Hws.
  - simpl. split; [by left|]. by intros [?|?%elem_of_nil].
  - apply Forall_cons in Hws as [[u Hu] Hrest].
    rewrite (update_loop_cons _ _ _ _ _ Hu), (payload_keys_cons _ _ _ _ Hu).
    rewrite IH by done. rewrite dict_keys_set_elem, elem_of_cons. tauto.
Qed.

Lemma update_loop_NoDup env settings W :
  NoDup (dict_keys W) → NoDup (dict_keys (update_loop env settings W).2).
Proof.
  revert W. induction settings as [|setting rest IH]; intros W Hnd; simpl; [done|].
  destruct (setting !! "workspace") as [[u|l]|]; simpl; [|done..].
  apply IH. by apply dict_keys_set_NoDup.
Qed.

Lemma update_loop_frame env settings W k :
  k ∉ payload_keys env settings →
  dict_get k (update_loop env settings W).2 = dict_get k W.
Proof.
  revert W. induction settings as [|setting rest IH]; intros W Hk; [done|].
  destruct (workspace_uri setting) as [u|] eqn:Hu.
  - rewrite (update_loop_cons _ _ _ _ _ Hu).
    rewrite (payload_keys_cons _ _ _ _ Hu) in Hk.
    apply not_elem_of_cons in Hk as [Hne Hk].
    rewrite IH by done. by apply dict_get_set_ne.
  - unfold workspace_uri in Hu. simpl.
    by destruct (setting !! "workspace") as [[?|?]|].
Qed.

Lemma update_loop_records env settings W k :
  has_workspace settings → k ∈ payload_keys env settings →
  ∃ setting, setting ∈ settings ∧ setting_key env setting = Some k ∧
    dict_get k (update_loop env settings W).2 = Some (setting_record k setting).
Proof.
  revert W. induction settings as [|setting rest IH]; intros W Hws Hk.
  - by apply elem_of_nil in Hk.
  - apply Forall_cons in Hws as [[u Hu] Hrest].
    rewrite (update_loop_cons _ _ _ _ _ Hu).
    rewrite (payload_keys_cons _ _ _ _ Hu) in Hk.
    destruct (decide (k ∈ payload_keys env rest)) as [Hin|Hnin].
    + destruct (IH (dict_set (to_fs_path env u)
                      (setting_record (to_fs_path env u) setting) W) Hrest Hin)
        as (s & Hs & Hkey & Hget).
      exists s. split_and!; [by right|done..].
    + apply elem_of_cons in Hk as [->|?]; [|done].
      exists setting. split_and!; [left| |].
      * unfold setting_key. by rewrite Hu.
      * rewrite update_loop_frame by done. apply dict_get_set_eq.
Qed.

(** C2, as amended: for a non-empty payload of configuration objects that
    each carry a workspace URI, the update merges the payload into the
    store.  It succeeds; afterwards the store holds one record per key, its
    keys are those it had before together with the workspace roots of the
    payload, each root of the payload is bound to the record built from one
    of its configuration objects, and the record of every other key is the
    one that was there before.  The roots of the store are exactly those of
    the payload if and only if the payload names every root the store had
    before, as it does when the store was empty. *)
Theorem update_merges_into_store env G (settings : list pydict) W :
  settings ≠ [] →
  has_workspace settings →
  NoDup (dict_keys W) →
  let result := _update_workspace_settings env G (Some settings) W in
  result.1 = Ok tt ∧
  NoDup (dict_keys result.2) ∧
  (∀ k, k ∈ dict_keys result.2 ↔ k ∈ dict_keys W ∨ k ∈ payload_keys env settings) ∧
  (∀ k, k ∈ payload_keys env settings →
     ∃ setting, setting ∈ settings ∧ setting_key env setting = Some k ∧
       dict_get k result.2 = Some (setting_record k setting)) ∧
  (∀ k, k ∉ payload_keys env settings → dict_get k result.2 = dict_get k W) ∧
  (full_replace env settings result.2 ↔
   ∀ k, k ∈ dict_keys W → k ∈ payload_keys env settings) ∧
  (W = [] → full_replace env settings result.2).
Proof.
  intros Hne Hws Hnd result.
  assert (result = update_loop env settings W) as ->.
  { subst result. by destruct settings. }
  split_and!.
  - by apply update_loop_ok.
  - by apply update_loop_NoDup.
  - intros k. by apply update_loop_keys.
  - intros k. by apply update_loop_records.
  - intros k. by apply update_loop_frame.
  - split.
    + intros Hfull k Hk. apply Hfull, update_loop_keys; [done|by left].
    + intros Hall k. rewrite update_loop_keys by done.
      split; [intros [?|?]; [by apply Hall|done]|by right].
  - intros -> k. rewrite update_loop_keys by done.
    split; [by intros [?%elem_of_nil|?]|by right].
Qed.

Lemma update_merges_into_store_witness :
  let result :=
    _update_workspace_settings Sample.env ∅
      (Some [Sample.config "file:///new" [] [] []])
      (Sample.store_of [Sample.config "file:///old" [] [] []]) in
  dict_get "/old" result.2 =
  dict_get "/old" (Sample.store_of [Sample.config "file:///old" [] [] []]).
Proof.
  apply (update_merges_into_store Sample.env ∅
           [Sample.config "file:///new" [] [] []]
           (Sample.store_of [Sample.config "file:///old" [] [] []])).
  - done.
  - repeat constructor; compute_done.
  - vm_compute. repeat constructor; compute_done.
  - compute_done.
Defined.

(** C2, refuted as stated: a root that only a previous payload had is still
    in the store after the update, so the store is not replaced in full. *)
Lemma update_keeps_stale_root :
  let W := Sample.store_of [Sample.config "file:///old" [] [] []] in
  let payload := [Sample.config "file:///new" [] [] []] in
  let W' := (_update_workspace_settings Sample.env ∅ (Some payload) W).2 in
  dict_keys W' = ["/old"; "/new"] ∧ ¬ full_replace Sample.env payload W'.
Proof.
  split; [by vm_compute|].
  intros Hfull. specialize (Hfull "/old"). vm_compute in Hfull.
  destruct Hfull as [Hfull _].
  assert ("/old" ∈ ["/new"]) as Hin by (apply Hfull; left).
  by apply list_elem_of_singleton in Hin.
Qed.

(** ** Resolution *)

Lemma workspace_set_keyed W :
  store_keyed W →
  ∃ ws, workspace_set (dict_values W) = Ok ws ∧ ∀ k, k ∈ ws ↔ k ∈ dict_keys W.
Proof.
  unfold store_keyed, dict_values, dict_keys.
  induction W as [|[k0 r] W IH]; intros HW.
  - exists ∅. split; [done|]. intros k. by rewrite elem_of_nil, elem_of_empty.
  - apply Forall_cons in HW as [Hk0 HW]. destruct (IH HW) as (ws & Hws & Hiff).
    exists ({[k0]} ∪ ws). unfold keyed_by in Hk0. cbn [fst snd] in Hk0.
    rewrite !fmap_cons. cbn [fst snd workspace_set].
    rewrite Hk0, Hws. split; [done|].
    intros k. rewrite elem_of_union, elem_of_singleton, elem_of_cons, Hiff. tauto.
Qed.

Lemma dict_item_is_Ok {V} (d : list (string * V)) k :
  k ∈ dict_keys d → is_Ok (dict_item k d).
Proof.
  intros [v Hv]%dict_get_is_Some. unfold dict_item. by rewrite Hv.
Qed.

Lemma first_value_is_Ok W : W ≠ [] → is_Ok (first_value W).
Proof. by destruct W as [|[k r] W]. Qed.

Lemma walk_paths_cons rt x up :
  walk_paths rt (x :: up) = mkPath rt (rev (x :: up)) :: walk_paths rt up.
Proof.
  unfold walk_paths. cbn [length seq fmap list_fmap]. rewrite drop_0. f_equal.
  rewrite <- fmap_S_seq, <- list_fmap_compose. done.
Qed.

Lemma candidates_walk_paths p : candidates p = walk_paths (root p) (rev (parts p)).
Proof.
  unfold candidates, walk_paths. rewrite length_rev.
  apply list_fmap_ext. intros _ n _. apply iter_Path_parent.
Qed.

Lemma candidates_unfold p :
  parts p ≠ [] → candidates p = p :: candidates (Path_parent p).
Proof.
  intros Hne. rewrite !candidates_walk_paths.
  destruct p as [rt ps]. simpl in *.
  destruct ps as [|x ps _] using rev_ind; [done|].
  rewrite removelast_last, rev_app_distr. simpl.
  rewrite walk_paths_cons. simpl. by rewrite rev_involutive.
Qed.

Lemma key_walk_first_match ws rt rparts :
  key_walk ws rt rparts = head (filter (λ s, s ∈ ws) (Path_str <$> walk_paths rt rparts)).
Proof.
  induction rparts as [|x up IH]; [done|].
  rewrite walk_paths_cons, fmap_cons, filter_cons. cbn [key_walk].
  case_bool_decide; [by rewrite decide_True|by rewrite decide_False].
Qed.

Lemma settings_walk_first_match W ws rt rparts :
  settings_walk W ws rt rparts =
  match head (filter (λ s, s ∈ ws) (Path_str <$> walk_paths rt rparts)) with
  | Some k => dict_item k W
  | None => first_value W
  end.
Proof.
  induction rparts as [|x up IH]; [done|].
  rewrite walk_paths_cons, fmap_cons, filter_cons. cbn [settings_walk].
  case_bool_decide; [by rewrite decide_True|by rewrite decide_False].
Qed.

Lemma key_walk_elem ws rt rparts k : key_walk ws rt rparts = Some k → k ∈ ws.
Proof.
  induction rparts as [|x up IH]; [done|]. cbn [key_walk].
  case_bool_decide; [by intros [= <-]|done].
Qed.

Lemma resolution_is_Ok env G W document :
  store_keyed W → W ≠ [] → directory_has_uri env W document →
  is_Ok (_get_settings_by_document env G W document).
Proof.
  intros HW Hne Huri. destruct document as [[u [p|] src]|];
    [|by apply first_value_is_Ok..].
  specialize (Huri _ p eq_refl eq_refl).
  destruct (workspace_set_keyed W HW) as (ws & Hws & Hiff).
  destruct W as [|e W]; [done|].
  unfold _get_settings_by_document. unfold _get_document_key in *.
  cbn [path] in *. rewrite Hws in *.
  destruct (key_walk ws _ _) as [k|] eqn:Hwalk.
  - apply dict_item_is_Ok, Hiff. by eapply key_walk_elem.
  - by rewrite Huri.
Qed.

Lemma document_key_candidates W document p ws :
  W ≠ [] → path document = Some p →
  workspace_set (dict_values W) = Ok ws →
  _get_document_key W document =
  Ok (head (filter (λ s, s ∈ ws) (Path_str <$> candidates (Path_of p)))).
Proof.
  intros Hne Hp Hws. unfold _get_document_key. rewrite Hp, Hws.
  destruct W; [done|].
  by rewrite key_walk_first_match, candidates_walk_paths.
Qed.

Lemma settings_by_path_candidates W file_path ws :
  workspace_set (dict_values W) = Ok ws →
  _get_settings_by_path W file_path =
  match head (filter (λ s, s ∈ ws) (Path_str <$> candidates file_path)) with
  | Some k => dict_item k W
  | None => first_value W
  end.
Proof.
  intros Hws. unfold _get_settings_by_path. rewrite Hws.
  by rewrite settings_walk_first_match, candidates_walk_paths.
Qed.

Lemma settings_by_document_key env G W document p k :
  path document = Some p →
  _get_document_key W document = Ok (Some k) →
  _get_settings_by_document env G W (Some document) = dict_item k W.
Proof. intros Hp Hk. unfold _get_settings_by_document. by rewrite Hp, Hk. Qed.

Lemma settings_by_document_no_key env G W document p :
  path document = Some p →
  _get_document_key W document = Ok None →
  _get_settings_by_document env G W (Some document) =
  match from_fs_path_error env (Path_str (Path_parent (Path_of p))) with
  | Some e => Raise e
  | None => Ok (default_record env G (Path_str (Path_parent (Path_of p))))
  end.
Proof. intros Hp Hk. unfold _get_settings_by_document. by rewrite Hp, Hk. Qed.

(** C5, as amended: when a document path is given, the paths compared with
    the workspace roots are the path of the document itself, file name
    included, and then its ancestor directories outward, the root excluded;
    the first one that is a workspace root is the key, in
    [_get_document_key] and in [_get_settings_by_path] alike.  So in a
    store with the root [/a/b], and possibly [/a], in which neither the
    file nor [/a/b/c] is a root, a document at [/a/b/c/file.x] resolves to
    the record of [/a/b]. *)
Theorem document_key_first_match env G W ws :
  store_keyed W → W ≠ [] →
  workspace_set (dict_values W) = Ok ws →
  (∀ document p, path document = Some p →
     _get_document_key W document =
     Ok (head (filter (λ s, s ∈ ws) (Path_str <$> candidates (Path_of p)))) ∧
     _get_settings_by_path W (Path_of p) =
     match head (filter (λ s, s ∈ ws) (Path_str <$> candidates (Path_of p))) with
     | Some k => dict_item k W
     | None => first_value W
     end ∧
     (parts (Path_of p) ≠ [] →
      candidates (Path_of p) = Path_of p :: candidates (Path_parent (Path_of p)))) ∧
  (∀ u src,
     "/a/b" ∈ dict_keys W → "/a/b/c" ∉ dict_keys W → "/a/b/c/file.x" ∉ dict_keys W →
     _get_settings_by_document env G W
       (Some (mkDocument u (Some "/a/b/c/file.x") src)) = dict_item "/a/b" W).
Proof.
  intros HW Hne Hws. split.
  - intros document p Hp. split_and!.
    + by apply document_key_candidates.
    + by apply settings_by_path_candidates.
    + apply candidates_unfold.
  - intros u src Hab Hc Hfile.
    destruct (workspace_set_keyed W HW) as (ws' & Hws' & Hiff).
    rewrite Hws in Hws'. injection Hws' as <-.
    apply (settings_by_document_key _ _ _ _ "/a/b/c/file.x"); [done|].
    rewrite (document_key_candidates _ _ "/a/b/c/file.x" ws) by done.
    assert (Path_str <$> candidates (Path_of "/a/b/c/file.x")
            = ["/a/b/c/file.x"; "/a/b/c"; "/a/b"; "/a"]) as -> by reflexivity.
    rewrite filter_cons, decide_False by (by rewrite Hiff).
    rewrite filter_cons, decide_False by (by rewrite Hiff).
    rewrite filter_cons, decide_True by (by rewrite Hiff).
    done.
Qed.

Lemma document_key_first_match_witness :
  let W := Sample.store_of [Sample.config "file:///a" [] [] ["--outer"];
                            Sample.config "file:///a/b" [] [] ["--inner"]] in
  _get_settings_by_document Sample.env ∅ W
    (Some (mkDocument "file:///a/b/c/file.x" (Some "/a/b/c/file.x") "x = 1"))
  = dict_item "/a/b" W.
Proof.
  intros W.
  apply (document_key_first_match Sample.env ∅ W {["/a"; "/a/b"]}).
  - repeat constructor.
  - done.
  - by vm_compute.
  - compute_done.
  - compute_done.
  - compute_done.
Defined.

(** C5, refuted as stated: the walk does compare the path of the document
    itself, so a root equal to it wins over the directory of the document;
    a walk that starts at the directory gives another key. *)
Lemma document_key_compares_file_name :
  let W := Sample.store_of [Sample.config "file:///a/b" [] [] [];
                            Sample.config "file:///a/b/file.x" [] [] []] in
  let document := mkDocument "file:///a/b/file.x" (Some "/a/b/file.x") "x = 1" in
  _get_document_key W document = Ok (Some "/a/b/file.x") ∧
  spec_document_key W document = Ok (Some "/a/b") ∧
  _get_document_key W document ≠ spec_document_key W document.
Proof. split_and!; [by vm_compute..|]. by vm_compute. Qed.

(** ** Traces of the runners *)

Lemma emitted_foldl_apply_op ops st : emitted (foldl apply_op st ops) = emitted st.
Proof.
  revert st. induction ops as [|[f|l] ops IH]; intros st; simpl; [done|..];
    by rewrite IH.
Qed.

(** Unfold the monad and the helpers of the runners. *)
Ltac run_all :=
  cbv [mbind M_bind mret M_ret lift emit raise log_to_output log_error log_warning
       is_python call_run_path call_run_over_json_rpc log_stderr rpc_result
       run_in_process copy_sys_path substitute_sys_path try_except call_run_module
       outcome_bind outcome_ret get_settings getitem as_list iadd_list].

(** Split on whatever the run still depends on, and compare the traces. *)
Ltac run_cases :=
  repeat (simpl; rewrite ?emitted_foldl_apply_op; case_match; simplify_eq);
  simpl; rewrite ?emitted_foldl_apply_op; simpl.

Ltac trace_done :=
  unfold backend_calls, warnings; rewrite ?omap_app; simpl;
  rewrite ?app_nil_r, <- ?app_assoc; try done.

Lemma run_tool_backend_call env extra st settings ws p i :
  _get_settings_by_document env (GLOBAL_SETTINGS st) (WORKSPACE_SETTINGS st) None
  = Ok settings →
  settings !! "workspaceFS" = Some ws →
  settings !! "path" = Some (VList p) →
  settings !! "interpreter" = Some (VList i) →
  backend_calls (emitted (_run_tool env extra st).2) =
  backend_calls (emitted st) ++
  [(priority env p i, mkInvocation (base_argv p ++ extra) true ws None)].
Proof.
  intros Hfirst Hws Hp Hi.
  unfold _run_tool, select_run_tool.
  run_all. rewrite Hfirst, Hws, Hp, Hi.
  destruct p as [|p0 p]; [destruct i as [|i0 i]|]; simpl.
  - run_cases; trace_done.
  - destruct (is_current_interpreter env i0); simpl.
    + run_cases; trace_done.
    + run_cases; trace_done.
  - run_cases; trace_done.
Qed.

Lemma run_tool_on_document_backend_call env document use_stdin extra st
    settings ws cwd p i a :
  passes_filters env document →
  _get_settings_by_document env (GLOBAL_SETTINGS st) (WORKSPACE_SETTINGS st)
    (Some document) = Ok settings →
  settings !! "workspaceFS" = Some ws →
  settings !! "cwd" = Some cwd →
  settings !! "path" = Some (VList p) →
  settings !! "interpreter" = Some (VList i) →
  settings !! "args" = Some (VList a) →
  (use_stdin = false → is_Some (path document)) →
  backend_calls (emitted (_run_tool_on_document env document use_stdin extra st).2) =
  backend_calls (emitted st) ++
  [(priority env p i,
    mkInvocation
      (base_argv p ++ TOOL_ARGS ++ a ++ default [] extra ++
       (if use_stdin then [] else option_list (path document)))
      use_stdin cwd
      (Some (match p with
             | [] => source document
             | _ => replace_crlf (source document)
             end)))].
Proof.
  intros (Hcell & Hparse & Hstd) Hsettings Hws Hcwd Hp Hi Ha Hpath.
  unfold _run_tool_on_document, select_on_document.
  rewrite Hcell. run_all. rewrite Hparse, Hstd. cbn [negb].
  rewrite Hsettings, Hws, Hcwd, Hp, Hi, Ha.
  destruct p as [|p0 p]; [destruct i as [|i0 i]|]; simpl.
  - destruct use_stdin; [|destruct Hpath as [q Hq]; [done|rewrite Hq]];
      run_cases; trace_done.
  - destruct (is_current_interpreter env i0); simpl;
      (destruct use_stdin; [|destruct Hpath as [q Hq]; [done|rewrite Hq]]);
      run_cases; trace_done.
  - destruct use_stdin; [|destruct Hpath as [q Hq]; [done|rewrite Hq]];
      run_cases; trace_done.
Qed.

(** C4, as amended: [_run_tool] runs the tool without a document.  It makes
    one backend call, with [use_stdin] true, no source text and no document
    path, and with an [argv] that is the initial value (the configured tool
    path, or else the module name) followed by the call-site extra
    arguments: the arguments of the resolved record are not part of it.
    The fixed arguments of the module are the empty list, so this [argv]
    is the same whether or not they are counted in. *)
Theorem run_tool_invocation env extra st settings ws p i :
  _get_settings_by_document env (GLOBAL_SETTINGS st) (WORKSPACE_SETTINGS st) None
  = Ok settings →
  settings !! "workspaceFS" = Some ws →
  settings !! "path" = Some (VList p) →
  settings !! "interpreter" = Some (VList i) →
  backend_calls (emitted (_run_tool env extra st).2) =
  backend_calls (emitted st) ++
  [(priority env p i,
    {| argv := base_argv p ++ extra; use_stdin := true; cwd := ws;
       source_text := None |})] ∧
  TOOL_ARGS = [].
Proof. intros. split; [by eapply run_tool_backend_call|done]. Qed.

Lemma run_tool_invocation_witness :
  backend_calls
    (emitted (_run_tool Sample.env ["--version"]
                (Sample.state_of
                   (Sample.store_of
                      [Sample.config "file:///a" ["/usr/bin/tool"; "-q"] [] ["--check"]]))).2)
  = [(DirectPath,
      {| argv := ["/usr/bin/tool"; "-q"; "--version"]; use_stdin := true;
         cwd := VStr "/a"; source_text := None |})].
Proof.
  eapply proj1, (run_tool_invocation Sample.env ["--version"]
            (Sample.state_of
               (Sample.store_of
                  [Sample.config "file:///a" ["/usr/bin/tool"; "-q"] [] ["--check"]]))
            _ (VStr "/a") ["/usr/bin/tool"; "-q"] []).
  - reflexivity.
  - vm_compute. reflexivity.
  - vm_compute. reflexivity.
  - vm_compute. reflexivity.
Defined.

(** C4, refuted as stated: the arguments of the resolved record are not in
    the [argv] that [_run_tool] builds. *)
Lemma run_tool_drops_record_args :
  let st := Sample.state_of
              (Sample.store_of
                 [Sample.config "file:///a" [] ["/usr/bin/python3"] ["--check"]]) in
  backend_calls (emitted (_run_tool Sample.env ["--version"] st).2)
  = [(InProcessModule,
      {| argv := [TOOL_MODULE; "--version"]; use_stdin := true;
         cwd := VStr "/a"; source_text := None |})] ∧
  ¬ ∃ call, call ∈ backend_calls (emitted (_run_tool Sample.env ["--version"] st).2) ∧
            "--check" ∈ argv call.2.
Proof.
  split; [by vm_compute|].
  intros (call & Hcall & Hin). vm_compute in Hcall.
  apply list_elem_of_singleton in Hcall as ->. simpl in Hin.
  apply elem_of_cons in Hin as [?|Hin]; [done|].
  apply list_elem_of_singleton in Hin. done.
Qed.

(** C6: for every settings record with a tool path and an interpreter
    path, both runners select by the same fixed priority.  A non-empty tool
    path gives the direct-path backend whatever the interpreter path is; an
    empty tool path with an interpreter path whose first element is not the
    current interpreter gives the JSON-RPC backend; everything else, an
    interpreter path that starts with the current interpreter included,
    gives the in-process module backend; and the backend each runner calls
    is the selected one. *)
Theorem strategy_selection_priority env settings p i :
  settings !! "path" = Some (VList p) →
  settings !! "interpreter" = Some (VList i) →
  (∃ use_path use_rpc,
     select_on_document env settings = Ok (use_path, use_rpc, VList (base_argv p)) ∧
     select_run_tool env settings = Ok (use_path, use_rpc, VList (base_argv p)) ∧
     strategy_of use_path use_rpc = priority env p i) ∧
  (p ≠ [] → priority env p i = DirectPath) ∧
  (p = [] → ∀ i0, head i = Some i0 → is_current_interpreter env i0 = false →
     priority env p i = CrossRuntimeRpc) ∧
  (p = [] → (∀ i0, head i = Some i0 → is_current_interpreter env i0 = true) →
     priority env p i = InProcessModule) ∧
  (∀ extra st ws,
     _get_settings_by_document env (GLOBAL_SETTINGS st) (WORKSPACE_SETTINGS st) None
     = Ok settings →
     settings !! "workspaceFS" = Some ws →
     (backend_calls (emitted (_run_tool env extra st).2)).*1 =
     (backend_calls (emitted st)).*1 ++ [priority env p i]) ∧
  (∀ document use_stdin extra st ws cwd a,
     passes_filters env document →
     _get_settings_by_document env (GLOBAL_SETTINGS st) (WORKSPACE_SETTINGS st)
       (Some document) = Ok settings →
     settings !! "workspaceFS" = Some ws →
     settings !! "cwd" = Some cwd →
     settings !! "args" = Some (VList a) →
     (use_stdin = false → is_Some (path document)) →
     (backend_calls
        (emitted (_run_tool_on_document env document use_stdin extra st).2)).*1 =
     (backend_calls (emitted st)).*1 ++ [priority env p i]).
Proof.
  intros Hp Hi. split_and!.
  - unfold select_on_document, select_run_tool, getitem. rewrite Hp, Hi.
    destruct p as [|p0 p]; [destruct i as [|i0 i]|]; simpl.
    + by exists false, false.
    + destruct (is_current_interpreter env i0); simpl.
      * by exists false, false.
      * by exists false, true.
    + by exists true, false.
  - by destruct p.
  - intros -> i0 Hhead Hcur. destruct i as [|i1 i]; simplify_eq/=. by rewrite Hcur.
  - intros -> Hcur. destruct i as [|i1 i]; simpl; [done|]. by rewrite Hcur.
  - intros extra st ws Hsettings Hws.
    rewrite (run_tool_backend_call env extra st settings ws p i) by done.
    by rewrite fmap_app.
  - intros document use_stdin extra st ws cwd a Hpass Hsettings Hws Hcwd Ha Hpath.
    rewrite (run_tool_on_document_backend_call env document use_stdin extra st
               settings ws cwd p i a) by done.
    by rewrite fmap_app.
Qed.

Lemma strategy_selection_priority_witness :
  let st := Sample.state_of
              (Sample.store_of
                 [Sample.config "file:///a" ["/usr/bin/tool"] ["/opt/py"] []]) in
  (backend_calls (emitted (_run_tool Sample.env [] st).2)).*1 =
  (backend_calls (emitted st)).*1 ++ [DirectPath].
Proof.
  intros st.
  eapply (strategy_selection_priority Sample.env
            (setting_record "/a"
               (Sample.config "file:///a" ["/usr/bin/tool"] ["/opt/py"] []))
            ["/usr/bin/tool"] ["/opt/py"]).
  - vm_compute. reflexivity.
  - vm_compute. reflexivity.
  - reflexivity.
  - vm_compute. reflexivity.
Defined.

(** C9: for a record with an empty tool path, the current interpreter as
    its interpreter path and the arguments [--check], running on the
    document [/proj/x.src] without stdin calls the in-process module
    backend with an [argv] that ends with [--check] and the document path;
    with stdin the path is not appended. *)
Theorem scenario_in_process env document st settings ws cwd i0 :
  path document = Some "/proj/x.src" →
  passes_filters env document →
  _get_settings_by_document env (GLOBAL_SETTINGS st) (WORKSPACE_SETTINGS st)
    (Some document) = Ok settings →
  settings !! "workspaceFS" = Some ws →
  settings !! "cwd" = Some cwd →
  settings !! "path" = Some (VList []) →
  settings !! "interpreter" = Some (VList [i0]) →
  is_current_interpreter env i0 = true →
  settings !! "args" = Some (VList ["--check"]) →
  backend_calls (emitted (_run_tool_on_document env document false None st).2) =
  backend_calls (emitted st) ++
  [(InProcessModule,
    {| argv := [TOOL_MODULE] ++ ["--check"; "/proj/x.src"]; use_stdin := false;
       cwd := cwd; source_text := Some (source document) |})] ∧
  backend_calls (emitted (_run_tool_on_document env document true None st).2) =
  backend_calls (emitted st) ++
  [(InProcessModule,
    {| argv := [TOOL_MODULE] ++ ["--check"]; use_stdin := true;
       cwd := cwd; source_text := Some (source document) |})].
Proof.
  intros Hpath Hpass Hsettings Hws Hcwd Hp Hi Hcur Ha. split.
  - rewrite (run_tool_on_document_backend_call env document false None st
               settings ws cwd [] [i0] ["--check"])
      by first [done | intros _; rewrite Hpath; by eexists].
    simpl. by rewrite Hcur, Hpath.
  - rewrite (run_tool_on_document_backend_call env document true None st
               settings ws cwd [] [i0] ["--check"]) by done.
    simpl. by rewrite Hcur.
Qed.

Lemma scenario_in_process_witness :
  let st := Sample.state_of
              (Sample.store_of
                 [Sample.config "file:///proj" [] ["/usr/bin/python3"] ["--check"]]) in
  let document := mkDocument "file:///proj/x.src" (Some "/proj/x.src") "x = 1" in
  backend_calls (emitted (_run_tool_on_document Sample.env document false None st).2) =
  backend_calls (emitted st) ++
  [(InProcessModule,
    {| argv := [TOOL_MODULE] ++ ["--check"; "/proj/x.src"]; use_stdin := false;
       cwd := VStr "/proj"; source_text := Some "x = 1" |})].
Proof.
  intros st document.
  eapply (scenario_in_process Sample.env document st _ (VStr "/proj") (VStr "/proj")
            "/usr/bin/python3").
  - reflexivity.
  - repeat split.
  - reflexivity.
  - vm_compute. reflexivity.
  - vm_compute. reflexivity.
  - vm_compute. reflexivity.
  - vm_compute. reflexivity.
  - reflexivity.
  - vm_compute. reflexivity.
Defined.

Lemma run_tool_rpc_exception env extra st settings ws interpreter response e :
  _get_settings_by_document env (GLOBAL_SETTINGS st) (WORKSPACE_SETTINGS st) None
  = Ok settings →
  settings !! "workspaceFS" = Some ws →
  selects_rpc env settings interpreter →
  exec_rpc env ws interpreter TOOL_MODULE
    (mkInvocation (TOOL_MODULE :: extra) true ws None) = Ok response →
  remote_exception response e →
  (_run_tool env extra st).1 = Ok (RunResult2 (stdout response) (stderr response)) ∧
  show_message_log e Error ∈ emitted (_run_tool env extra st).2.
Proof.
  intros Hsettings Hws (Hp & Hi & i0 & Hhead & Hcur) Hrpc [Hexc Hne].
  apply String.eqb_neq in Hne.
  destruct interpreter as [|i1 interpreter]; [done|]. injection Hhead as ->.
  unfold _run_tool, select_run_tool.
  run_all. rewrite Hsettings, Hws, Hp, Hi. simpl. rewrite Hcur. simpl.
  rewrite Hrpc, Hexc, Hne. simpl.
  destruct (bool_decide _); simpl; (split; [done|]);
    rewrite <- !app_assoc; simpl; apply elem_of_app; right; do 3 right; left.
Qed.

Lemma run_tool_on_document_rpc_exception env document use_stdin extra st
    settings ws cwd interpreter a response e :
  passes_filters env document →
  _get_settings_by_document env (GLOBAL_SETTINGS st) (WORKSPACE_SETTINGS st)
    (Some document) = Ok settings →
  settings !! "workspaceFS" = Some ws →
  settings !! "cwd" = Some cwd →
  selects_rpc env settings interpreter →
  settings !! "args" = Some (VList a) →
  (use_stdin = false → is_Some (path document)) →
  exec_rpc env ws interpreter TOOL_MODULE
    (mkInvocation
       (TOOL_MODULE :: a ++ default [] extra ++
        (if use_stdin then [] else option_list (path document)))
       use_stdin cwd (Some (source document))) = Ok response →
  remote_exception response e →
  (_run_tool_on_document env document use_stdin extra st).1 =
    Ok (Some (RunResult2 (stdout response) (stderr response))) ∧
  show_message_log e Error ∈
    emitted (_run_tool_on_document env document use_stdin extra st).2.
Proof.
  intros (Hcell & Hparse & Hstd) Hsettings Hws Hcwd (Hp & Hi & i0 & Hhead & Hcur)
    Ha Hpath Hrpc [Hexc Hne].
  apply String.eqb_neq in Hne.
  destruct interpreter as [|i1 interpreter]; [done|]. injection Hhead as ->.
  unfold _run_tool_on_document, select_on_document.
  rewrite Hcell. run_all. rewrite Hparse, Hstd. cbn [negb].
  rewrite Hsettings, Hws, Hcwd, Hp, Hi, Ha. simpl. rewrite Hcur. simpl.
  destruct use_stdin; [|destruct Hpath as [q Hq]; [done|rewrite Hq in *]]; simpl in *.
  - rewrite app_nil_r in Hrpc. rewrite Hrpc, Hexc, Hne. simpl.
    destruct (bool_decide _); simpl; (split; [done|]);
      rewrite <- !app_assoc; simpl; apply elem_of_app; right; do 3 right; left.
  - rewrite <- app_assoc. rewrite Hrpc, Hexc, Hne. simpl.
    destruct (bool_decide _); simpl; (split; [done|]);
      rewrite <- !app_assoc; simpl; apply elem_of_app; right; do 3 right; left.
Qed.

(** C1, as amended: in both runners, when the JSON-RPC backend is used and
    its response carries a remote exception, the exception is logged as an
    error and the result returned to the caller is rebuilt from the
    standard output and the standard error of the response, which are kept
    as they are; the rebuilt result carries no exception. *)
Theorem rpc_exception_result env st settings ws interpreter response e :
  settings !! "workspaceFS" = Some ws →
  selects_rpc env settings interpreter →
  remote_exception response e →
  (∀ extra,
     _get_settings_by_document env (GLOBAL_SETTINGS st) (WORKSPACE_SETTINGS st) None
     = Ok settings →
     exec_rpc env ws interpreter TOOL_MODULE
       (mkInvocation (TOOL_MODULE :: extra) true ws None) = Ok response →
     (_run_tool env extra st).1 =
       Ok {| stdout := stdout response; stderr := stderr response; exception := None |} ∧
     show_message_log e Error ∈ emitted (_run_tool env extra st).2) ∧
  (∀ document use_stdin extra cwd a,
     passes_filters env document →
     _get_settings_by_document env (GLOBAL_SETTINGS st) (WORKSPACE_SETTINGS st)
       (Some document) = Ok settings →
     settings !! "cwd" = Some cwd →
     settings !! "args" = Some (VList a) →
     (use_stdin = false → is_Some (path document)) →
     exec_rpc env ws interpreter TOOL_MODULE
       (mkInvocation
          (TOOL_MODULE :: a ++ default [] extra ++
           (if use_stdin then [] else option_list (path document)))
          use_stdin cwd (Some (source document))) = Ok response →
     (_run_tool_on_document env document use_stdin extra st).1 =
       Ok (Some {| stdout := stdout response; stderr := stderr response;
                   exception := None |}) ∧
     show_message_log e Error ∈
       emitted (_run_tool_on_document env document use_stdin extra st).2).
Proof.
  intros Hws Hsel Hexc. split.
  - intros extra Hsettings Hrpc.
    by apply (run_tool_rpc_exception env extra st settings ws interpreter response e).
  - intros document use_stdin extra cwd a Hpass Hsettings Hcwd Ha Hpath Hrpc.
    by apply (run_tool_on_document_rpc_exception env document use_stdin extra st
                settings ws cwd interpreter a response e).
Qed.

Lemma rpc_exception_result_witness :
  let st := Sample.state_of
              (Sample.store_of [Sample.config "file:///a/b" [] ["/opt/py"] ["--check"]]) in
  (_run_tool Sample.env ["--version"] st).1 =
    Ok {| stdout := "partial output"; stderr := "remote warning"; exception := None |} ∧
  show_message_log "Traceback: remote failure" Error
    ∈ emitted (_run_tool Sample.env ["--version"] st).2.
Proof.
  intros st.
  eapply (rpc_exception_result Sample.env st
            (setting_record "/a/b" (Sample.config "file:///a/b" [] ["/opt/py"] ["--check"]))
            (VStr "/a/b") ["/opt/py"]
            {| stdout := "partial output"; stderr := "remote warning";
               exception := Some "Traceback: remote failure" |}
            "Traceback: remote failure").
  - vm_compute. reflexivity.
  - split_and!; [vm_compute; reflexivity..|]. by exists "/opt/py".
  - by split.
  - reflexivity.
  - reflexivity.
Defined.

(** C1, refuted as stated: the output of a response that carries a remote
    exception reaches the caller, and the exception does not. *)
Lemma rpc_exception_output_not_reset :
  let st := Sample.state_of
              (Sample.store_of [Sample.config "file:///a/b" [] ["/opt/py"] ["--check"]]) in
  let document := mkDocument "file:///a/b/m.py" (Some "/a/b/m.py") "x = 1" in
  exec_rpc Sample.env (VStr "/a/b") ["/opt/py"] TOOL_MODULE
    (mkInvocation [TOOL_MODULE; "--check"; "/a/b/m.py"] false (VStr "/a/b") (Some "x = 1"))
  = Ok {| stdout := "partial output"; stderr := "remote warning";
          exception := Some "Traceback: remote failure" |} ∧
  (_run_tool_on_document Sample.env document false None st).1 =
    Ok (Some {| stdout := "partial output"; stderr := "remote warning";
                exception := None |}) ∧
  (_run_tool Sample.env [] st).1 =
    Ok {| stdout := "partial output"; stderr := "remote warning"; exception := None |} ∧
  ¬ (∀ result, (_run_tool_on_document Sample.env document false None st).1
               = Ok (Some result) →
               stdout result = "" ∧ stderr result = "" ∧ is_Some (exception result)).
Proof.
  split_and!; [vm_compute; reflexivity..|].
  intros Hclaim.
  destruct (Hclaim {| stdout := "partial output"; stderr := "remote warning";
                      exception := None |}) as [Hout _]; [vm_compute; reflexivity|].
  discriminate Hout.
Qed.




(** ** The module search path *)

Lemma path_frame_refl st : path_frame st st.
Proof. by split_and!. Qed.

Lemma path_frame_trans st st' st'' :
  path_frame st st' → path_frame st' st'' → path_frame st st''.
Proof.
  intros (Hp & Ho & Hd) (Hp' & Ho' & Hd'). split_and!.
  - by rewrite Hp'.
  - rewrite <- Ho, <- Hp. by rewrite Ho'.
  - set_solver.
Qed.

Lemma path_frame_is_Some st st' :
  path_frame st st' →
  is_Some (objects st !! sys_path st) → is_Some (objects st' !! sys_path st').
Proof. intros (Hp & Ho & _). by rewrite Hp, Ho. Qed.

Create HintDb keeps.

Lemma keeps_ret {A} (a : A) : keeps_sys_path (mret a).
Proof. intros st _. apply path_frame_refl. Qed.

Lemma keeps_lift {A} (o : outcome A) : keeps_sys_path (lift o).
Proof. intros st _. apply path_frame_refl. Qed.

Lemma keeps_raise {A} (e : exn) : keeps_sys_path (@raise A e).
Proof. intros st _. apply path_frame_refl. Qed.

Lemma keeps_emit (e : Event) : keeps_sys_path (emit e).
Proof. intros st _. by split_and!. Qed.

Lemma keeps_bind {A B} (m : M A) (f : A → M B) :
  keeps_sys_path m → (∀ a, keeps_sys_path (f a)) → keeps_sys_path (m ≫= f).
Proof.
  intros Hm Hf st Hst. unfold mbind, M_bind.
  specialize (Hm st Hst). destruct (m st) as [[a|e] st']; simpl in *; [|done].
  eapply path_frame_trans; [done|]. apply Hf. by eapply path_frame_is_Some.
Qed.

Lemma keeps_get_settings env document : keeps_sys_path (get_settings env document).
Proof. intros st _. apply path_frame_refl. Qed.

#[local] Hint Resolve keeps_ret keeps_lift keeps_raise keeps_emit keeps_get_settings : keeps.

(** Prove that a computation built from binds and branches keeps
    [sys.path], from the hints for its parts. *)
Ltac keeps :=
  repeat first
    [ progress eauto with keeps
    | apply keeps_bind; [|intros ?]
    | case_match ].

Lemma keeps_log_to_output message : keeps_sys_path (log_to_output message).
Proof. unfold log_to_output. keeps. Qed.

Lemma keeps_log_error env message : keeps_sys_path (log_error env message).
Proof. unfold log_error. keeps. Qed.

Lemma keeps_log_warning env message : keeps_sys_path (log_warning env message).
Proof. unfold log_warning. keeps. Qed.

#[local] Hint Resolve keeps_log_to_output keeps_log_error keeps_log_warning : keeps.

Lemma keeps_is_python env code : keeps_sys_path (is_python env code).
Proof. unfold is_python. keeps. Qed.

Lemma keeps_log_stderr result : keeps_sys_path (log_stderr result).
Proof. unfold log_stderr. keeps. Qed.

Lemma keeps_rpc_result env result : keeps_sys_path (rpc_result env result).
Proof. unfold rpc_result. keeps. Qed.

Lemma keeps_call_run_path env call : keeps_sys_path (call_run_path env call).
Proof. unfold call_run_path. keeps. Qed.

Lemma keeps_call_run_over_json_rpc env workspace interpreter module call :
  keeps_sys_path (call_run_over_json_rpc env workspace interpreter module call).
Proof. unfold call_run_over_json_rpc. keeps. Qed.

#[local] Hint Resolve keeps_is_python keeps_log_stderr keeps_rpc_result
  keeps_call_run_path keeps_call_run_over_json_rpc : keeps.

(** While the tool runs, the object that was bound to [sys.path] before is
    out of its reach: [sys.path] is bound to another object, and stays so. *)
Lemma apply_op_away old st op :
  is_Some (objects st !! old) → sys_path st ≠ old →
  objects (apply_op st op) !! old = objects st !! old ∧
  sys_path (apply_op st op) ≠ old ∧
  dom (objects st) ⊆ dom (objects (apply_op st op)).
Proof.
  intros Hold Hne. destruct op as [f|l]; simpl.
  - split_and!; [by rewrite lookup_alter_ne|done|].
    intros k. rewrite !elem_of_dom, lookup_alter.
    case_decide; subst; [|done]. intros [x ->]. by eexists.
  - assert (fresh (dom (objects st)) ≠ old) as Hfresh.
    { intros <-. apply elem_of_dom in Hold. by apply is_fresh in Hold. }
    split_and!; [by rewrite lookup_insert_ne|done|].
    rewrite dom_insert. set_solver.
Qed.

Lemma foldl_apply_op_away old ops st :
  is_Some (objects st !! old) → sys_path st ≠ old →
  objects (foldl apply_op st ops) !! old = objects st !! old ∧
  dom (objects st) ⊆ dom (objects (foldl apply_op st ops)).
Proof.
  revert st. induction ops as [|op ops IH]; intros st Hold Hne; simpl; [done|].
  destruct (apply_op_away old st op Hold Hne) as (Ho & Hp & Hd).
  destruct (IH (apply_op st op)) as [Ho' Hd']; [by rewrite Ho|done|].
  split; [by rewrite Ho'|by etrans].
Qed.

Lemma keeps_run_in_process env call : keeps_sys_path (run_in_process env call).
Proof.
  intros st Hst. unfold run_in_process.
  run_all.
  set (n := fresh (dom (objects st))).
  assert (n ≠ sys_path st) as Hfresh.
  { intros Hn. apply elem_of_dom in Hst. rewrite <- Hn in Hst.
    by apply is_fresh in Hst. }
  set (st1 := add_event _ _).
  assert (is_Some (objects st1 !! sys_path st)) as Hst1.
  { subst st1. simpl. by rewrite lookup_insert_ne. }
  assert (sys_path st1 ≠ sys_path st) as Hne1 by done.
  destruct (exec_module env TOOL_MODULE call (sys_path_value st1)) as [ops r].
  destruct (foldl_apply_op_away (sys_path st) ops st1 Hst1 Hne1) as [Ho Hd].
  assert (objects st1 !! sys_path st = objects st !! sys_path st) as Ho1.
  { subst st1. simpl. by rewrite lookup_insert_ne. }
  assert (dom (objects st) ⊆ dom (objects st1)) as Hd1.
  { subst st1. simpl. rewrite dom_insert. set_solver. }
  destruct r as [result|traceback]; simpl.
  - split_and!; simpl; [done|by rewrite Ho|set_solver].
  - destruct (bool_decide _); simpl;
      (split_and!; simpl; [done|by rewrite Ho|set_solver]).
Qed.

#[local] Hint Resolve keeps_run_in_process : keeps.

Lemma keeps_run_tool_on_document env document use_stdin extra :
  keeps_sys_path (_run_tool_on_document env document use_stdin extra).
Proof. unfold _run_tool_on_document. keeps. Qed.

Lemma keeps_run_tool env extra : keeps_sys_path (_run_tool env extra).
Proof. unfold _run_tool. keeps. Qed.

Lemma path_frame_value st st' :
  path_frame st st' →
  sys_path st' = sys_path st ∧ sys_path_value st' = sys_path_value st.
Proof. intros (Hp & Ho & _). unfold sys_path_value. by rewrite Hp, Ho. Qed.

Lemma run_in_process_outcome env call st :
  (run_in_process env call st).1 =
  match (exec_module env TOOL_MODULE call (sys_path_value st)).2 with
  | inl result => Ok result
  | inr traceback => Raise (Fault traceback)
  end.
Proof.
  unfold run_in_process. run_all.
  assert (sys_path_value
            (add_event (run_module TOOL_MODULE call)
               (set_sys_path (fresh (dom (objects st)))
                  (set_objects
                     (<[fresh (dom (objects st)) := sys_path_value st]> (objects st)) st)))
          = sys_path_value st) as ->.
  { unfold sys_path_value at 1. simpl. by rewrite lookup_insert_eq. }
  destruct (exec_module env TOOL_MODULE call (sys_path_value st)) as [ops [r|tb]];
    simpl; [done|]. by destruct (bool_decide _).
Qed.

(** C8: the tool run as a module sees the contents of [sys.path] in a
    list object of its own, and returns or raises as the tool does; on both
    exits, and so after every run of either runner, [sys.path] is bound to
    the list object it was bound to before the call, with the contents it
    had before the call. *)
Theorem in_process_restores_sys_path env :
  (∀ call st,
     is_Some (objects st !! sys_path st) →
     sys_path (run_in_process env call st).2 = sys_path st ∧
     sys_path_value (run_in_process env call st).2 = sys_path_value st) ∧
  (∀ call st,
     (run_in_process env call st).1 =
     match (exec_module env TOOL_MODULE call (sys_path_value st)).2 with
     | inl result => Ok result
     | inr traceback => Raise (Fault traceback)
     end) ∧
  (∀ document use_stdin extra st,
     is_Some (objects st !! sys_path st) →
     sys_path (_run_tool_on_document env document use_stdin extra st).2 = sys_path st ∧
     sys_path_value (_run_tool_on_document env document use_stdin extra st).2
     = sys_path_value st) ∧
  (∀ extra st,
     is_Some (objects st !! sys_path st) →
     sys_path (_run_tool env extra st).2 = sys_path st ∧
     sys_path_value (_run_tool env extra st).2 = sys_path_value st).
Proof.
  split_and!.
  - intros call st Hst. by apply path_frame_value, keeps_run_in_process.
  - apply run_in_process_outcome.
  - intros document use_stdin extra st Hst.
    by apply path_frame_value, keeps_run_tool_on_document.
  - intros extra st Hst. by apply path_frame_value, keeps_run_tool.
Qed.

Lemma in_process_restores_sys_path_witness :
  let st := Sample.state_of
              (Sample.store_of
                 [Sample.config "file:///a" [] ["/usr/bin/python3"] []]) in
  sys_path (_run_tool Sample.env ["--crash"] st).2 = sys_path st ∧
  sys_path_value (_run_tool Sample.env ["--crash"] st).2 = sys_path_value st.
Proof.
  intros st. apply (in_process_restores_sys_path Sample.env).
  vm_compute. by eexists.
Defined.

Example run_tool_crash_raises :
  (_run_tool Sample.env ["--crash"]
     (Sample.state_of
        (Sample.store_of [Sample.config "file:///a" [] ["/usr/bin/python3"] []]))).1
  = Raise (Fault "Traceback: tool crashed").
Proof. vm_compute. reflexivity. Qed.

(** ** More on the settings store *)

Section DictMore.
Context {V : Type}.
Implicit Types (d : list (string * V)) (k : string) (v : V).

Lemma dict_set_set d k v v' : dict_set k v (dict_set k v' d) = dict_set k v d.
Proof.
  induction d as [|[k0 v0] d IH]; simpl.
  - by rewrite decide_True.
  - case_decide; simpl; [by rewrite decide_True|].
    rewrite decide_False by done. by rewrite IH.
Qed.

Lemma dict_keys_set_prefix d k v : dict_keys d `prefix_of` dict_keys (dict_set k v d).
Proof.
  rewrite dict_keys_set. case_decide; [done|]. by apply prefix_app_r.
Qed.

(** Two dictionaries with the same keys in the same order and the same
    value at every key are equal. *)
Lemma dict_ext d1 d2 :
  NoDup (dict_keys d1) → dict_keys d1 = dict_keys d2 →
  (∀ k, dict_get k d1 = dict_get k d2) → d1 = d2.
Proof.
  unfold dict_keys. revert d2.
  induction d1 as [|[k1 v1] d1 IH]; intros [|[k2 v2] d2] Hnd Hkeys Hget;
    try done.
  rewrite !fmap_cons in Hkeys. cbn [fst] in Hkeys. injection Hkeys as <- Hkeys.
  rewrite fmap_cons in Hnd. cbn [fst] in Hnd.
  apply NoDup_cons in Hnd as [Hnin Hnd].
  pose proof (Hget k1) as Hk. simpl in Hk. rewrite !decide_True in Hk by done.
  injection Hk as ->. f_equal. apply IH; [done..|].
  intros k. specialize (Hget k). simpl in Hget.
  destruct (decide (k = k1)) as [->|Hne]; [|done].
  assert (dict_get k1 d1 = None) as ->.
  { apply eq_None_not_Some. by rewrite dict_get_is_Some. }
  symmetry. apply eq_None_not_Some. rewrite dict_get_is_Some.
  unfold dict_keys. by rewrite <- Hkeys.
Qed.
End DictMore.

Lemma last_setting_cons env setting rest k :
  last_setting env (setting :: rest) k =
  match last_setting env rest k with
  | Some s => Some s
  | None => if decide (setting_key env setting = Some k) then Some setting else None
  end.
Proof.
  unfold last_setting. rewrite filter_cons.
  destruct (decide (setting_key env setting = Some k)) as [Hk|Hk]; [|by destruct (last _)].
  destruct (filter _ rest) as [|s' l] eqn:E; [done|].
  rewrite last_cons. by destruct (last (s' :: l)).
Qed.

Lemma update_loop_get env settings W k :
  has_workspace settings →
  dict_get k (update_loop env settings W).2 =
  match last_setting env settings k with
  | Some setting => Some (setting_record k setting)
  | None => dict_get k W
  end.
Proof.
  revert W. induction settings as [|setting rest IH]; intros W Hws; [done|].
  apply Forall_cons in Hws as [[u Hu] Hrest].
  rewrite (update_loop_cons _ _ _ _ _ Hu), IH, last_setting_cons by done.
  destruct (last_setting env rest k) as [s|]; [done|].
  assert (setting_key env setting = Some (to_fs_path env u)) as Hkey.
  { unfold setting_key. by rewrite Hu. }
  case_decide as Hk.
  - rewrite Hkey in Hk. injection Hk as <-. apply dict_get_set_eq.
  - apply dict_get_set_ne. intros <-. done.
Qed.

Lemma update_loop_keys_prefix env settings W :
  dict_keys W `prefix_of` dict_keys (update_loop env settings W).2.
Proof.
  revert W. induction settings as [|setting rest IH]; intros W; simpl; [done|].
  destruct (setting !! "workspace") as [[u|l]|]; simpl; [|done..].
  etrans; [|apply IH]. apply dict_keys_set_prefix.
Qed.

Lemma update_loop_keys_known env settings W :
  has_workspace settings →
  (∀ k, k ∈ payload_keys env settings → k ∈ dict_keys W) →
  dict_keys (update_loop env settings W).2 = dict_keys W.
Proof.
  revert W. induction settings as [|setting rest IH]; intros W Hws Hin; [done|].
  apply Forall_cons in Hws as [[u Hu] Hrest].
  rewrite (update_loop_cons _ _ _ _ _ Hu).
  rewrite (payload_keys_cons _ _ _ _ Hu) in Hin.
  assert (dict_keys (dict_set (to_fs_path env u)
                       (setting_record (to_fs_path env u) setting) W) = dict_keys W)
    as Hkeys.
  { rewrite dict_keys_set, decide_True; [done|]. apply Hin. left. }
  rewrite IH, Hkeys; [done..|].
  intros k Hk. rewrite Hkeys. apply Hin. by right.
Qed.

Lemma update_loop_idempotent env settings W :
  has_workspace settings → NoDup (dict_keys W) →
  (update_loop env settings (update_loop env settings W).2).2
  = (update_loop env settings W).2.
Proof.
  intros Hws Hnd. apply dict_ext.
  - by do 2 apply update_loop_NoDup.
  - apply update_loop_keys_known; [done|].
    intros k Hk. apply update_loop_keys; [done|]. by right.
  - intros k. rewrite (update_loop_get _ _ (update_loop env settings W).2) by done.
    rewrite (update_loop_get _ _ W) by done.
    by destruct (last_setting env settings k).
Qed.

Lemma update_loop_ok_inv env settings W :
  (update_loop env settings W).1 = Ok tt → has_workspace settings.
Proof.
  revert W. induction settings as [|setting rest IH]; intros W Hok; [constructor|].
  simpl in Hok. unfold has_workspace.
  destruct (setting !! "workspace") as [[u|l]|] eqn:Hu; simpl in Hok; [|done..].
  apply Forall_cons. split; [|by eapply IH].
  unfold workspace_uri. rewrite Hu. by eexists.
Qed.

Lemma update_loop_app env good rest W :
  has_workspace good →
  update_loop env (good ++ rest) W = update_loop env rest (update_loop env good W).2.
Proof.
  revert W. induction good as [|setting good IH]; intros W Hws; [done|].
  apply Forall_cons in Hws as [[u Hu] Hgood]. simpl app.
  rewrite !(update_loop_cons _ _ _ _ _ Hu). by apply IH.
Qed.

(** X1: when several configuration objects of a payload name the same
    workspace root, the last one decides the record of that root; the
    record of a root that the payload does not name is left as it was.
    The record built from a configuration object always has the root as
    its [workspaceFS], and the root as its [cwd] unless the object carries
    a [cwd] of its own, which is kept. *)
Theorem update_last_config_wins env G (settings : list pydict) W k :
  settings ≠ [] → has_workspace settings →
  dict_get k (_update_workspace_settings env G (Some settings) W).2 =
  match last_setting env settings k with
  | Some setting => Some (setting_record k setting)
  | None => dict_get k W
  end ∧
  ∀ setting, setting_record k setting !! "workspaceFS" = Some (VStr k) ∧
             setting_record k setting !! "cwd" = Some (default (VStr k) (setting !! "cwd")).
Proof.
  intros Hne Hws. split.
  - assert (_update_workspace_settings env G (Some settings) W
            = update_loop env settings W) as -> by (by destruct settings).
    by apply update_loop_get.
  - intros setting. split; [apply setting_record_lookup_workspaceFS|].
    destruct (setting !! "cwd") as [v|] eqn:Hcwd; simpl.
    + by apply setting_record_lookup_cwd_own.
    + by apply setting_record_lookup_cwd.
Qed.

Lemma update_last_config_wins_witness :
  dict_get "/a"
    (_update_workspace_settings Sample.env ∅
       (Some [Sample.config "file:///a" [] [] ["--first"];
              Sample.config "file:///b" [] [] [];
              Sample.config "file:///a" [] [] ["--second"]]) []).2
  = Some (setting_record "/a" (Sample.config "file:///a" [] [] ["--second"])).
Proof.
  eapply (update_last_config_wins Sample.env ∅
            [Sample.config "file:///a" [] [] ["--first"];
             Sample.config "file:///b" [] [] [];
             Sample.config "file:///a" [] [] ["--second"]] [] "/a").
  - done.
  - repeat constructor; compute_done.
Defined.

(** X2: the update is idempotent: applying a payload whose configuration
    objects each carry a workspace URI (or an empty payload) a second time
    leaves the store exactly as the first application left it. *)
Theorem update_idempotent env G (settings : option (list pydict)) W :
  has_workspace (default [] settings) → NoDup (dict_keys W) →
  (_update_workspace_settings env G settings
     (_update_workspace_settings env G settings W).2).2
  = (_update_workspace_settings env G settings W).2.
Proof.
  intros Hws Hnd. destruct settings as [[|s l]|]; simpl.
  - apply dict_set_set.
  - pose proof (update_loop_idempotent env (s :: l) W Hws Hnd) as H. by simpl in H.
  - apply dict_set_set.
Qed.

Lemma update_idempotent_witness :
  let payload := Some [Sample.config "file:///a" [] [] ["--first"];
                       Sample.config "file:///a" [] [] ["--second"]] in
  (_update_workspace_settings Sample.env ∅ payload
     (_update_workspace_settings Sample.env ∅ payload []).2).2
  = (_update_workspace_settings Sample.env ∅ payload []).2.
Proof.
  intros payload. apply (update_idempotent Sample.env ∅ payload []).
  - repeat constructor; compute_done.
  - constructor.
Defined.

(** X3: an update never reorders or removes the keys of the store: the keys
    it had stay in front, in their order, whatever the payload is and
    whether the update raises or not.  So on a non-empty store the first
    key, whose record is the one resolved when there is no document, stays
    the same. *)
Theorem update_keeps_key_order env G (settings : option (list pydict)) W :
  dict_keys W `prefix_of` dict_keys (_update_workspace_settings env G settings W).2 ∧
  (W ≠ [] →
   head (dict_keys (_update_workspace_settings env G settings W).2) = head (dict_keys W)).
Proof.
  assert (dict_keys W `prefix_of`
            dict_keys (_update_workspace_settings env G settings W).2) as Hpre.
  { destruct settings as [[|s l]|]; simpl.
    - apply dict_keys_set_prefix.
    - apply (update_loop_keys_prefix env (s :: l) W).
    - apply dict_keys_set_prefix. }
  split; [done|]. intros Hne. destruct Hpre as [more ->].
  by destruct W as [|[k r] W].
Qed.

Lemma update_keeps_key_order_witness :
  head (dict_keys
          (_update_workspace_settings Sample.env ∅
             (Some [Sample.config "file:///b" [] [] []; Sample.config "file:///a" [] [] []])
             (Sample.store_of [Sample.config "file:///a" [] [] []])).2)
  = head (dict_keys (Sample.store_of [Sample.config "file:///a" [] [] []])).
Proof.
  apply (update_keeps_key_order Sample.env ∅
           (Some [Sample.config "file:///b" [] [] []; Sample.config "file:///a" [] [] []])
           (Sample.store_of [Sample.config "file:///a" [] [] []])).
  done.
Defined.

(** X4: the update returns normally when every configuration object of
    the payload carries a workspace URI.  When it reaches an object without
    a ["workspace"] key it raises [KeyError]: the objects before it have
    already been stored, and those after it are not looked at. *)
Theorem update_fails_on_missing_workspace env G :
  (∀ (settings : option (list pydict)) W,
     has_workspace (default [] settings) →
     (_update_workspace_settings env G settings W).1 = Ok tt) ∧
  (∀ (good : list pydict) (bad : pydict) (rest : list pydict) W,
     has_workspace good → bad !! "workspace" = None →
     _update_workspace_settings env G (Some (good ++ bad :: rest)) W =
     (Raise (KeyError "workspace"), (update_loop env good W).2)).
Proof.
  split.
  - intros settings W Hws. destruct settings as [[|s l]|]; simpl; [done| |done].
    by apply (update_loop_ok env (s :: l) W).
  - intros good bad rest W Hgood Hbad.
    assert (_update_workspace_settings env G (Some (good ++ bad :: rest)) W
            = update_loop env (good ++ bad :: rest) W) as -> by (by destruct good).
    rewrite update_loop_app by done. simpl. by rewrite Hbad.
Qed.

Lemma update_fails_on_missing_workspace_witness :
  _update_workspace_settings Sample.env ∅
    (Some ([Sample.config "file:///a" [] [] []] ++
           delete "workspace" (Sample.config "file:///b" [] [] []) ::
           [Sample.config "file:///c" [] [] []])) []
  = (Raise (KeyError "workspace"),
     (update_loop Sample.env [Sample.config "file:///a" [] [] []] []).2).
Proof.
  apply (update_fails_on_missing_workspace Sample.env ∅).
  - repeat constructor; compute_done.
  - vm_compute. reflexivity.
Defined.

(** ** More on resolution *)

Lemma filter_elem_of_empty (ws : gset string) (l : list string) :
  ws = ∅ → filter (λ s, s ∈ ws) l = [].
Proof.
  intros ->. induction l as [|x l IH]; [done|].
  rewrite filter_cons, decide_False; [done|]. apply not_elem_of_empty.
Qed.

(** X5: on every store, [_get_settings_by_path] and
    [_get_settings_by_document] agree when the walk finds a workspace root
    for the document; when it finds none they differ:
    [_get_settings_by_path] falls back to the first record of the store
    (and raises on an empty store), [_get_settings_by_document] to a record
    synthesized for the directory of the document, or to the exception
    that [uris.from_fs_path] raises when that directory has no URI. *)
Theorem settings_by_path_and_by_document env G W document p :
  path document = Some p →
  (∀ k, _get_document_key W document = Ok (Some k) →
     _get_settings_by_path W (Path_of p)
     = _get_settings_by_document env G W (Some document)) ∧
  (_get_document_key W document = Ok None →
     _get_settings_by_path W (Path_of p) = first_value W ∧
     _get_settings_by_document env G W (Some document)
     = match from_fs_path_error env (Path_str (Path_parent (Path_of p))) with
       | Some e => Raise e
       | None => Ok (default_record env G (Path_str (Path_parent (Path_of p))))
       end).
Proof.
  intros Hp. split.
  - intros k Hk. rewrite (settings_by_document_key env G W document p k) by done.
    unfold _get_document_key in Hk. rewrite Hp in Hk.
    destruct W as [|e W]; [done|].
    destruct (workspace_set (dict_values (e :: W))) as [ws|] eqn:Hws; [|done].
    injection Hk as Hk.
    change (key_walk ws (root (Path_of p)) (rev (parts (Path_of p))) = Some k) in Hk.
    rewrite (settings_by_path_candidates _ _ ws) by done.
    rewrite key_walk_first_match, <- candidates_walk_paths in Hk. by rewrite Hk.
  - intros Hk. split; [|by apply settings_by_document_no_key].
    unfold _get_document_key in Hk. rewrite Hp in Hk.
    destruct W as [|e W].
    + rewrite (settings_by_path_candidates _ _ ∅) by done.
      by rewrite (filter_elem_of_empty ∅).
    + destruct (workspace_set (dict_values (e :: W))) as [ws|] eqn:Hws; [|done].
      injection Hk as Hk.
      change (key_walk ws (root (Path_of p)) (rev (parts (Path_of p))) = None) in Hk.
      rewrite (settings_by_path_candidates _ _ ws) by done.
      rewrite key_walk_first_match, <- candidates_walk_paths in Hk. by rewrite Hk.
Qed.

Lemma settings_by_path_and_by_document_witness :
  let W := Sample.store_of [Sample.config "file:///a" [] [] []] in
  let document := mkDocument "file:///b/m.py" (Some "/b/m.py") "x = 1" in
  let outside := mkDocument "file:////host/m.py" (Some "//host/m.py") "x = 1" in
  (_get_settings_by_path W (Path_of "/b/m.py") = first_value W ∧
   _get_settings_by_document Sample.env ∅ W (Some document)
   = Ok (default_record Sample.env ∅ "/b")) ∧
  (_get_settings_by_path W (Path_of "//host/m.py") = first_value W ∧
   _get_settings_by_document Sample.env ∅ W (Some outside)
   = Raise (Fault "ValueError: substring not found")).
Proof.
  intros W document outside. split.
  - apply (settings_by_path_and_by_document Sample.env ∅ W document "/b/m.py").
    + reflexivity.
    + vm_compute. reflexivity.
  - apply (settings_by_path_and_by_document Sample.env ∅ W outside "//host/m.py").
    + reflexivity.
    + vm_compute. reflexivity.
Defined.

Lemma join_slash_nonempty (l : list string) :
  l ≠ [] → Forall (λ s, s ≠ "") l → join_slash l ≠ "".
Proof.
  intros Hne Hall. destruct l as [|x l]; [done|].
  apply Forall_cons in Hall as [Hx _].
  destruct x as [|c x]; [done|]. by destruct l.
Qed.

Lemma path_root_cases (s : string) :
  path_root s = "" ∨ path_root s = "/" ∨ path_root s = "//".
Proof.
  destruct s as [|a [|b [|c s]]]; simpl; repeat case_match; auto.
Qed.

Lemma Path_of_parts_nonempty (s : string) : Forall (λ x, x ≠ "") (parts (Path_of s)).
Proof.
  unfold Path_of. simpl. apply Forall_forall. intros x Hx.
  apply list_elem_of_In, filter_In in Hx as [_ Hkeep].
  unfold keep_part in Hkeep. apply andb_prop in Hkeep as [Hkeep _].
  intros ->. done.
Qed.

Lemma key_walk_Some ws rt rparts k :
  key_walk ws rt rparts = Some k →
  ∃ rp, rp ≠ [] ∧ rp `suffix_of` rparts ∧ k = Path_str (mkPath rt (rev rp)) ∧ k ∈ ws.
Proof.
  induction rparts as [|x up IH]; [done|]. cbn [key_walk].
  case_bool_decide as Hin.
  - intros [= <-]. exists (x :: up). by split_and!.
  - intros (rp & Hne & Hsuf & Hk & Hws)%IH. exists rp. split_and!; [done| |done..].
    by apply suffix_cons_r.
Qed.

(** X6: the walk stops before it compares the root of the file system: for
    a document with an absolute path, the key found is the path of the
    document or of one of its ancestors below the root, and is never [/].
    So a workspace whose root is [/] is never found by the walk. *)
Theorem document_key_never_root W document p k :
  path document = Some p →
  root (Path_of p) ≠ "" →
  _get_document_key W document = Ok (Some k) →
  k ≠ "/" ∧
  ∃ q, q ∈ candidates (Path_of p) ∧ parts q ≠ [] ∧ k = Path_str q.
Proof.
  intros Hp Hroot Hk. unfold _get_document_key in Hk. rewrite Hp in Hk.
  destruct W as [|e W]; [done|].
  destruct (workspace_set (dict_values (e :: W))) as [ws|]; [|done].
  injection Hk as Hk.
    change (key_walk ws (root (Path_of p)) (rev (parts (Path_of p))) = Some k) in Hk.
  pose proof Hk as (rp & Hne & Hsuf & -> & _)%key_walk_Some.
  split.
  - assert (Forall (λ x, x ≠ "") (rev rp)) as Hparts.
    { apply Forall_forall. intros x Hx.
      apply list_elem_of_In, in_rev in Hx.
      destruct Hsuf as [more Hmore].
      pose proof (Path_of_parts_nonempty p) as Hall.
      rewrite Forall_forall in Hall. apply Hall.
      apply list_elem_of_In, in_rev. rewrite Hmore. apply in_or_app. by right. }
    assert (rev rp ≠ []) as Hne'.
    { intros Hnil. apply (f_equal (@rev string)) in Hnil.
      by rewrite rev_involutive in Hnil. }
    pose proof (join_slash_nonempty _ Hne' Hparts) as Hjoin.
    unfold Path_str. cbn [parts root]. destruct (rev rp) as [|x l] eqn:E; [done|].
    unfold Path_of in *. cbn [root] in *.
    destruct (path_root_cases p) as [Hr|[Hr|Hr]]; rewrite Hr in *; [done|..].
    + destruct (join_slash (x :: l)); [done|]. done.
    + done.
  - rewrite key_walk_first_match, <- candidates_walk_paths in Hk.
    apply head_Some_elem_of, list_elem_of_filter in Hk as [_ Hk].
    apply list_elem_of_fmap in Hk as (q & Hq & Hin).
    exists q. split_and!; [done| |done].
    rewrite candidates_walk_paths in Hin. unfold walk_paths in Hin.
    apply list_elem_of_fmap in Hin as (n & -> & Hn). cbn [parts].
    apply elem_of_seq in Hn as [_ Hn]. simpl in Hn.
    intros Hnil. apply (f_equal length) in Hnil.
    rewrite length_rev, length_drop in Hnil. simpl in Hnil. lia.
Qed.

Lemma document_key_never_root_witness :
  "/a" ≠ "/" ∧
  ∃ q, q ∈ candidates (Path_of "/a/m.py") ∧ parts q ≠ [] ∧ "/a" = Path_str q.
Proof.
  apply (document_key_never_root
           (Sample.store_of [Sample.config "file:///" [] [] [];
                             Sample.config "file:///a" [] [] []])
           (mkDocument "file:///a/m.py" (Some "/a/m.py") "x = 1") "/a/m.py" "/a").
  - reflexivity.
  - done.
  - vm_compute. reflexivity.
Defined.

Example root_workspace_not_found :
  _get_document_key (Sample.store_of [Sample.config "file:///" [] [] []])
    (mkDocument "file:///m.py" (Some "/m.py") "x = 1") = Ok None.
Proof. vm_compute. reflexivity. Qed.

(** ** More on the runners *)

Lemma truthy_len_pos (v : pyval) : truthy v = len_pos v.
Proof. by destruct v as [[|c s]|[|x l]]. Qed.

(** X7: the two runners choose the backend in the same way for every
    settings record whose values are strings or lists of strings, complete
    or not: testing the tool path and the interpreter path for truth, as
    [_run_tool_on_document] does, and testing their lengths, as [_run_tool]
    does, give the same flags, the same initial [argv] and the same
    exceptions. *)
Theorem runners_select_alike env (settings : pydict) :
  select_on_document env settings = select_run_tool env settings.
Proof.
  unfold select_on_document, select_run_tool.
  destruct (getitem settings "path") as [p|e]; simpl; [|done].
  rewrite truthy_len_pos. destruct (len_pos p); [done|].
  destruct (getitem settings "interpreter") as [i|e]; simpl; [|done].
  by rewrite truthy_len_pos.
Qed.

Lemma calls_none_one {A} (m : M A) : calls_none m → calls_one m.
Proof.
  intros Hm st. destruct (Hm st) as (events & Hev & Hcalls).
  exists events. split; [done|]. rewrite Hcalls. simpl. lia.
Qed.

Lemma calls_none_ret {A} (a : A) : calls_none (mret a).
Proof. intros st. exists []. by rewrite app_nil_r. Qed.

Lemma calls_none_lift {A} (o : outcome A) : calls_none (lift o).
Proof. intros st. exists []. by rewrite app_nil_r. Qed.

Lemma calls_none_raise {A} (e : exn) : calls_none (@raise A e).
Proof. intros st. exists []. by rewrite app_nil_r. Qed.

Lemma calls_none_get_settings env document : calls_none (get_settings env document).
Proof. intros st. exists []. by rewrite app_nil_r. Qed.

Lemma calls_none_show_message_log message msg_type :
  calls_none (emit (show_message_log message msg_type)).
Proof. intros st. by eexists [_]. Qed.

Lemma calls_none_show_message message msg_type :
  calls_none (emit (show_message message msg_type)).
Proof. intros st. by eexists [_]. Qed.

Lemma calls_bind {A B} (m : M A) (f : A → M B) (a b : nat) :
  (∀ st, ∃ events, emitted (m st).2 = emitted st ++ events ∧
                   (List.length (backend_calls events) ≤ a)%nat) →
  (∀ x st, ∃ events, emitted (f x st).2 = emitted st ++ events ∧
                     (List.length (backend_calls events) ≤ b)%nat) →
  ∀ st, ∃ events, emitted ((m ≫= f) st).2 = emitted st ++ events ∧
                  (List.length (backend_calls events) ≤ a + b)%nat.
Proof.
  intros Hm Hf st. unfold mbind, M_bind.
  destruct (Hm st) as (ev1 & Hev1 & Hn1).
  destruct (m st) as [[x|e] st']; simpl in *.
  - destruct (Hf x st') as (ev2 & Hev2 & Hn2).
    exists (ev1 ++ ev2). rewrite Hev2, Hev1, app_assoc. split; [done|].
    unfold backend_calls in *. rewrite omap_app, length_app. lia.
  - exists ev1. split; [done|]. lia.
Qed.

Lemma calls_le_0 (events : list Event) :
  (List.length (backend_calls events) ≤ 0)%nat ↔ backend_calls events = [].
Proof.
  split; [|intros ->; simpl; lia]. by destruct (backend_calls events); simpl; [|lia].
Qed.

Lemma calls_none_bind {A B} (m : M A) (f : A → M B) :
  calls_none m → (∀ x, calls_none (f x)) → calls_none (m ≫= f).
Proof.
  intros Hm Hf st.
  destruct (calls_bind m f 0 0) with (st := st) as (events & Hev & Hn).
  - intros st'. destruct (Hm st') as (ev & ? & ?). exists ev. by rewrite calls_le_0.
  - intros x st'. destruct (Hf x st') as (ev & ? & ?). exists ev. by rewrite calls_le_0.
  - exists events. by rewrite <- calls_le_0.
Qed.

Lemma calls_one_bind_l {A B} (m : M A) (f : A → M B) :
  calls_one m → (∀ x, calls_none (f x)) → calls_one (m ≫= f).
Proof.
  intros Hm Hf st.
  destruct (calls_bind m f 1 0) with (st := st) as (events & Hev & Hn); [done| |by eexists].
  intros x st'. destruct (Hf x st') as (ev & ? & ?). exists ev. by rewrite calls_le_0.
Qed.

Lemma calls_one_bind_r {A B} (m : M A) (f : A → M B) :
  calls_none m → (∀ x, calls_one (f x)) → calls_one (m ≫= f).
Proof.
  intros Hm Hf st.
  destruct (calls_bind m f 0 1) with (st := st) as (events & Hev & Hn); [|done|by eexists].
  intros st'. destruct (Hm st') as (ev & ? & ?). exists ev. by rewrite calls_le_0.
Qed.

Create HintDb calls.

#[local] Hint Resolve calls_none_ret calls_none_lift calls_none_raise
  calls_none_get_settings calls_none_show_message_log calls_none_show_message : calls.

Ltac calls_none :=
  repeat first
    [ progress eauto with calls
    | apply calls_none_bind; [|intros ?]
    | case_match ].

Lemma calls_none_log_to_output message : calls_none (log_to_output message).
Proof. unfold log_to_output. calls_none. Qed.

Lemma calls_none_log_error env message : calls_none (log_error env message).
Proof. unfold log_error. calls_none. Qed.

Lemma calls_none_log_warning env message : calls_none (log_warning env message).
Proof. unfold log_warning. calls_none. Qed.

#[local] Hint Resolve calls_none_log_to_output calls_none_log_error
  calls_none_log_warning : calls.

Lemma calls_none_is_python env code : calls_none (is_python env code).
Proof. unfold is_python. calls_none. Qed.

Lemma calls_none_log_stderr result : calls_none (log_stderr result).
Proof. unfold log_stderr. calls_none. Qed.

Lemma calls_none_rpc_result env result : calls_none (rpc_result env result).
Proof. unfold rpc_result. calls_none. Qed.

#[local] Hint Resolve calls_none_is_python calls_none_log_stderr
  calls_none_rpc_result : calls.

Lemma calls_one_call_run_path env call : calls_one (call_run_path env call).
Proof.
  intros st. unfold call_run_path. run_all.
  destruct (exec_path env call); by eexists [_].
Qed.

Lemma calls_one_call_run_over_json_rpc env workspace interpreter module call :
  calls_one (call_run_over_json_rpc env workspace interpreter module call).
Proof.
  intros st. unfold call_run_over_json_rpc. run_all.
  destruct (exec_rpc env workspace interpreter module call); by eexists [_].
Qed.

Lemma calls_one_run_in_process env call : calls_one (run_in_process env call).
Proof.
  intros st. unfold run_in_process. run_all.
  destruct (exec_module _ _ _ _) as [ops [result|traceback]]; simpl.
  - rewrite emitted_foldl_apply_op. simpl. by eexists [_].
  - destruct (bool_decide _); simpl; rewrite emitted_foldl_apply_op; simpl;
      rewrite <- ?app_assoc; simpl; eexists; (split; [reflexivity|simpl; lia]).
Qed.

#[local] Hint Resolve calls_one_call_run_path calls_one_call_run_over_json_rpc
  calls_one_run_in_process : calls.

Ltac calls_one :=
  repeat first
    [ solve [eauto with calls]
    | apply calls_none_one; solve [calls_none]
    | apply calls_one_bind_r; [solve [calls_none]|intros ?]
    | apply calls_one_bind_l; [|intros ?; solve [calls_none]]
    | case_match ].

Lemma calls_one_run_tool env extra : calls_one (_run_tool env extra).
Proof. unfold _run_tool. calls_one. Qed.

Lemma calls_one_run_tool_on_document env document use_stdin extra :
  calls_one (_run_tool_on_document env document use_stdin extra).
Proof. unfold _run_tool_on_document. calls_one. Qed.

Lemma sys_path_value_copy (st : State) (o : gmap nat (list string)) (n : nat)
    (v : list string) (e : Event) :
  sys_path_value (add_event e (set_sys_path n (set_objects (<[n := v]> o) st))) = v.
Proof. unfold sys_path_value. simpl. by rewrite lookup_insert_eq. Qed.

Lemma sys_path_value_add_event (st : State) (e : Event) :
  sys_path_value (add_event e st) = sys_path_value st.
Proof. done. Qed.

Lemma run_tool_fault env extra st settings ws p i e :
  _get_settings_by_document env (GLOBAL_SETTINGS st) (WORKSPACE_SETTINGS st) None
  = Ok settings →
  settings !! "workspaceFS" = Some ws →
  settings !! "path" = Some (VList p) →
  settings !! "interpreter" = Some (VList i) →
  backend_answer env (priority env p i) ws i (tool_call extra p ws) (sys_path_value st)
  = Raise e →
  (_run_tool env extra st).1 = Raise e ∧
  ∃ m1 m2,
    emitted (_run_tool env extra st).2 =
    emitted st ++
    [show_message_log m1 Log; show_message_log m2 Log;
     call_event (priority env p i) ws i (tool_call extra p ws)] ++
    match priority env p i with
    | InProcessModule => error_events env (format_exc e)
    | _ => []
    end.
Proof.
  intros Hsettings Hws Hp Hi.
  unfold _run_tool, select_run_tool, tool_call, error_events.
  run_all. rewrite Hsettings, Hws, Hp, Hi.
  destruct p as [|p0 p]; [destruct i as [|i0 i]|]; simpl.
  - rewrite !sys_path_value_copy, !sys_path_value_add_event.
    destruct (exec_module _ _ _ _) as [ops [r|tb]]; simpl; [done|]. intros [= <-].
    destruct (bool_decide _); simpl; rewrite emitted_foldl_apply_op; simpl;
      (split; [done|]); rewrite <- !app_assoc; simpl; by do 2 eexists.
  - destruct (is_current_interpreter env i0); simpl.
    + rewrite !sys_path_value_copy, !sys_path_value_add_event.
      destruct (exec_module _ _ _ _) as [ops [r|tb]]; simpl; [done|]. intros [= <-].
      destruct (bool_decide _); simpl; rewrite emitted_foldl_apply_op; simpl;
        (split; [done|]); rewrite <- !app_assoc; simpl; by do 2 eexists.
    + intros ->. simpl. split; [done|]. rewrite <- !app_assoc. simpl. by do 2 eexists.
  - intros ->. simpl. split; [done|]. rewrite <- !app_assoc. simpl. by do 2 eexists.
Qed.

Lemma run_tool_on_document_fault env document use_stdin extra st
    settings ws cwd p i a e :
  passes_filters env document →
  _get_settings_by_document env (GLOBAL_SETTINGS st) (WORKSPACE_SETTINGS st)
    (Some document) = Ok settings →
  settings !! "workspaceFS" = Some ws →
  settings !! "cwd" = Some cwd →
  settings !! "path" = Some (VList p) →
  settings !! "interpreter" = Some (VList i) →
  settings !! "args" = Some (VList a) →
  (use_stdin = false → is_Some (path document)) →
  backend_answer env (priority env p i) ws i
    (document_call document use_stdin extra p a cwd) (sys_path_value st) = Raise e →
  (_run_tool_on_document env document use_stdin extra st).1 = Raise e ∧
  ∃ m1 m2,
    emitted (_run_tool_on_document env document use_stdin extra st).2 =
    emitted st ++
    [show_message_log m1 Log; show_message_log m2 Log;
     call_event (priority env p i) ws i (document_call document use_stdin extra p a cwd)] ++
    match priority env p i with
    | InProcessModule => error_events env (format_exc e)
    | _ => []
    end.
Proof.
  intros (Hcell & Hparse & Hstd) Hsettings Hws Hcwd Hp Hi Ha Hpath.
  unfold _run_tool_on_document, select_on_document, document_call, error_events.
  rewrite Hcell. run_all. rewrite Hparse, Hstd. cbn [negb].
  rewrite Hsettings, Hws, Hcwd, Hp, Hi, Ha.
  assert (∃ tail, (if use_stdin then [] else option_list (path document)) = tail ∧
                  (if use_stdin then Ok (@nil string)
                   else match path document with
                        | Some q => Ok [q] | None => Raise TypeError end) = Ok tail)
    as (tail & Htail & Hok).
  { destruct use_stdin; [by eexists|]. destruct Hpath as [q Hq]; [done|].
    rewrite Hq. by eexists. }
  rewrite Htail. clear Hpath.
  destruct p as [|p0 p]; [destruct i as [|i0 i]|]; simpl.
  - destruct use_stdin; [|destruct (path document)]; simplify_eq/=;
      rewrite ?app_nil_r, <- ?app_assoc, !sys_path_value_copy, !sys_path_value_add_event;
      (destruct (exec_module _ _ _ _) as [ops [r|tb]]; simpl; [done|]; intros [= <-];
       destruct (bool_decide _); simpl; rewrite ?emitted_foldl_apply_op; simpl;
       (split; [done|]); rewrite <- !app_assoc; simpl; by do 2 eexists).
  - destruct (is_current_interpreter env i0); simpl.
    + destruct use_stdin; [|destruct (path document)]; simplify_eq/=;
        rewrite ?app_nil_r, <- ?app_assoc, !sys_path_value_copy, !sys_path_value_add_event;
        (destruct (exec_module _ _ _ _) as [ops [r|tb]]; simpl; [done|]; intros [= <-];
         destruct (bool_decide _); simpl; rewrite ?emitted_foldl_apply_op; simpl;
         (split; [done|]); rewrite <- !app_assoc; simpl; by do 2 eexists).
    + destruct use_stdin; [|destruct (path document)]; simplify_eq/=;
        rewrite ?app_nil_r, <- ?app_assoc; intros ->; simpl; (split; [done|]);
        rewrite <- !app_assoc; simpl; by do 2 eexists.
  - destruct use_stdin; [|destruct (path document)]; simplify_eq/=;
      rewrite ?app_nil_r, <- ?app_assoc; intros ->; simpl; (split; [done|]);
      rewrite <- !app_assoc; simpl; by do 2 eexists.
Qed.

Ltac in_trace :=
  repeat first
    [ apply elem_of_app; right; apply list_elem_of_singleton; reflexivity
    | apply elem_of_app; left ].

Ltac returns_done Herr :=
  simpl; rewrite ?emitted_foldl_apply_op; simpl;
  split_and!; [done|by rewrite last_snoc|];
  first [ by (intros Hne; apply String.eqb_eq in Herr)
        | intros _; in_trace ].

Lemma run_tool_returns env extra st settings ws p i result :
  _get_settings_by_document env (GLOBAL_SETTINGS st) (WORKSPACE_SETTINGS st) None
  = Ok settings →
  settings !! "workspaceFS" = Some ws →
  settings !! "path" = Some (VList p) →
  settings !! "interpreter" = Some (VList i) →
  backend_answer env (priority env p i) ws i (tool_call extra p ws) (sys_path_value st)
  = Ok result →
  (priority env p i = CrossRuntimeRpc → no_exception result) →
  (_run_tool env extra st).1 = Ok result ∧
  last (emitted (_run_tool env extra st).2)
  = Some (show_message_log (CRLF +:+ stdout result +:+ CRLF) Log) ∧
  (stderr result ≠ "" →
   show_message_log (stderr result) Log ∈ emitted (_run_tool env extra st).2).
Proof.
  intros Hsettings Hws Hp Hi.
  unfold _run_tool, select_run_tool, tool_call, no_exception.
  run_all. rewrite Hsettings, Hws, Hp, Hi.
  destruct (stderr result =? "") eqn:Herr.
  all: destruct p as [|p0 p]; [destruct i as [|i0 i]|]; simpl.
  all: try (destruct (is_current_interpreter env i0); simpl).
  all: rewrite ?sys_path_value_copy, ?sys_path_value_add_event.
  all: try (destruct (exec_module _ _ _ _) as [ops [r|tb]]; simpl; [|done]).
  all: intros [= ->] Hexc; simpl; rewrite ?Herr; simpl.
  all: try (specialize (Hexc eq_refl); destruct (exception result) as [x|];
            [subst x|]; simpl; rewrite ?Herr; simpl).
  all: returns_done Herr.
Qed.

Lemma run_tool_on_document_returns env document use_stdin extra st
    settings ws cwd p i a result :
  passes_filters env document →
  _get_settings_by_document env (GLOBAL_SETTINGS st) (WORKSPACE_SETTINGS st)
    (Some document) = Ok settings →
  settings !! "workspaceFS" = Some ws →
  settings !! "cwd" = Some cwd →
  settings !! "path" = Some (VList p) →
  settings !! "interpreter" = Some (VList i) →
  settings !! "args" = Some (VList a) →
  (use_stdin = false → is_Some (path document)) →
  backend_answer env (priority env p i) ws i
    (document_call document use_stdin extra p a cwd) (sys_path_value st) = Ok result →
  (priority env p i = CrossRuntimeRpc → no_exception result) →
  (_run_tool_on_document env document use_stdin extra st).1 = Ok (Some result) ∧
  last (emitted (_run_tool_on_document env document use_stdin extra st).2)
  = Some (show_message_log (uri document +:+ " :" +:+ CRLF +:+ stdout result) Log) ∧
  (stderr result ≠ "" →
   show_message_log (stderr result) Log
   ∈ emitted (_run_tool_on_document env document use_stdin extra st).2).
Proof.
  intros (Hcell & Hparse & Hstd) Hsettings Hws Hcwd Hp Hi Ha Hpath.
  unfold _run_tool_on_document, select_on_document, document_call, no_exception.
  rewrite Hcell. run_all. rewrite Hparse, Hstd. cbn [negb].
  rewrite Hsettings, Hws, Hcwd, Hp, Hi, Ha.
  assert (use_stdin = true ∨ ∃ q, use_stdin = false ∧ path document = Some q)
    as [->|(q & -> & Hq)].
  { destruct use_stdin; [by left|]. destruct Hpath as [q Hq]; [done|]. right. by exists q. }
  all: rewrite ?Hq; clear Hpath.
  all: destruct (stderr result =? "") eqn:Herr.
  all: destruct p as [|p0 p]; [destruct i as [|i0 i]|]; simpl.
  all: try (destruct (is_current_interpreter env i0); simpl).
  all: rewrite ?app_nil_r, <- ?app_assoc, ?sys_path_value_copy, ?sys_path_value_add_event.
  all: try (destruct (exec_module _ _ _ _) as [ops [r|tb]]; simpl; [|done]).
  all: intros [= ->] Hexc; simpl; rewrite ?Herr; simpl.
  all: try (specialize (Hexc eq_refl); destruct (exception result) as [x|];
            [subst x|]; simpl; rewrite ?Herr; simpl).
  all: returns_done Herr.
Qed.

Lemma default_record_lookup_default env G key k d :
  (k, d) ∈ [("path", VList []); ("interpreter", VList [sys_executable env]);
            ("args", VList []); ("importStrategy", VStr "useBundled");
            ("showNotifications", VStr "off")] →
  default_record env G key !! k = Some (dict_default G k d).
Proof.
  intros Hin. repeat (apply elem_of_cons in Hin as [[= -> ->]|Hin]; [reflexivity|]).
  by apply elem_of_nil in Hin.
Qed.

(** X8: for every document that passes the filters and every settings
    record with a tool path, an interpreter path and arguments,
    [_run_tool_on_document] makes exactly one backend call, on the backend
    the priority order selects.  Its [argv] is the tool path, or else the
    module name, followed by the fixed arguments, the arguments of the
    record, the call-site arguments and, unless stdin is used, the path of
    the document; its working directory is the [cwd] of the record; and
    the source text has its CRLF pairs replaced by LF for the direct-path
    backend only. *)
Theorem document_invocation env document use_stdin extra st settings ws cwd p i a :
  passes_filters env document →
  _get_settings_by_document env (GLOBAL_SETTINGS st) (WORKSPACE_SETTINGS st)
    (Some document) = Ok settings →
  settings !! "workspaceFS" = Some ws →
  settings !! "cwd" = Some cwd →
  settings !! "path" = Some (VList p) →
  settings !! "interpreter" = Some (VList i) →
  settings !! "args" = Some (VList a) →
  (use_stdin = false → is_Some (path document)) →
  backend_calls (emitted (_run_tool_on_document env document use_stdin extra st).2) =
  backend_calls (emitted st) ++
  [(priority env p i,
    {| argv := base_argv p ++ TOOL_ARGS ++ a ++ default [] extra ++
               (if use_stdin then [] else option_list (path document));
       use_stdin := use_stdin;
       cwd := cwd;
       source_text := Some (match p with
                            | [] => source document
                            | _ => replace_crlf (source document)
                            end) |})].
Proof. apply run_tool_on_document_backend_call. Qed.

Lemma document_invocation_witness :
  let st := Sample.state_of
              (Sample.store_of
                 [Sample.config "file:///a" ["/usr/bin/tool"; "-q"] [] ["--check"]]) in
  let document :=
    mkDocument "file:///a/m.py" (Some "/a/m.py") ("x = 1" +:+ CRLF +:+ "y = 2" +:+ CRLF) in
  backend_calls
    (emitted (_run_tool_on_document Sample.env document false (Some ["--diff"]) st).2) =
  [(DirectPath,
    {| argv := ["/usr/bin/tool"; "-q"; "--check"; "--diff"; "/a/m.py"];
       use_stdin := false;
       cwd := VStr "/a";
       source_text := Some ("x = 1" +:+ String LF "y = 2" +:+ String LF "") |})].
Proof.
  intros st document.
  eapply (document_invocation Sample.env document false (Some ["--diff"]) st
            (setting_record "/a"
               (Sample.config "file:///a" ["/usr/bin/tool"; "-q"] [] ["--check"]))
            (VStr "/a") (VStr "/a") ["/usr/bin/tool"; "-q"] [] ["--check"]).
  - repeat split.
  - reflexivity.
  - vm_compute. reflexivity.
  - vm_compute. reflexivity.
  - vm_compute. reflexivity.
  - vm_compute. reflexivity.
  - vm_compute. reflexivity.
  - intros _. by eexists.
Defined.

(** X9: an exception raised by the selected backend escapes both runners:
    the runner raises the same exception and logs no result line.  After
    the two header lines and the call, a fault of the direct-path or of the
    JSON-RPC backend is not logged at all, whereas a fault of the tool run
    as a module is logged as an error before it is raised again. *)
Theorem backend_fault_escapes env st settings ws p i e :
  settings !! "workspaceFS" = Some ws →
  settings !! "path" = Some (VList p) →
  settings !! "interpreter" = Some (VList i) →
  (∀ extra,
     _get_settings_by_document env (GLOBAL_SETTINGS st) (WORKSPACE_SETTINGS st) None
     = Ok settings →
     backend_answer env (priority env p i) ws i (tool_call extra p ws) (sys_path_value st)
     = Raise e →
     (_run_tool env extra st).1 = Raise e ∧
     ∃ m1 m2,
       emitted (_run_tool env extra st).2 =
       emitted st ++
       [show_message_log m1 Log; show_message_log m2 Log;
        call_event (priority env p i) ws i (tool_call extra p ws)] ++
       match priority env p i with
       | InProcessModule => error_events env (format_exc e)
       | _ => []
       end) ∧
  (∀ document use_stdin extra cwd a,
     passes_filters env document →
     _get_settings_by_document env (GLOBAL_SETTINGS st) (WORKSPACE_SETTINGS st)
       (Some document) = Ok settings →
     settings !! "cwd" = Some cwd →
     settings !! "args" = Some (VList a) →
     (use_stdin = false → is_Some (path document)) →
     backend_answer env (priority env p i) ws i
       (document_call document use_stdin extra p a cwd) (sys_path_value st) = Raise e →
     (_run_tool_on_document env document use_stdin extra st).1 = Raise e ∧
     ∃ m1 m2,
       emitted (_run_tool_on_document env document use_stdin extra st).2 =
       emitted st ++
       [show_message_log m1 Log; show_message_log m2 Log;
        call_event (priority env p i) ws i
          (document_call document use_stdin extra p a cwd)] ++
       match priority env p i with
       | InProcessModule => error_events env (format_exc e)
       | _ => []
       end).
Proof.
  intros Hws Hp Hi. split.
  - intros extra Hsettings Hanswer.
    by apply (run_tool_fault env extra st settings ws p i e).
  - intros document use_stdin extra cwd a Hpass Hsettings Hcwd Ha Hpath Hanswer.
    by apply (run_tool_on_document_fault env document use_stdin extra st
                settings ws cwd p i a e).
Qed.

Lemma backend_fault_escapes_witness :
  let st := Sample.state_of
              (Sample.store_of [Sample.config "file:///a" [] ["/opt/py"] []]) in
  (_run_tool Broken.env ["--version"] st).1
  = Raise (Fault "Failed to run over JSON-RPC.") ∧
  ∃ m1 m2,
    emitted (_run_tool Broken.env ["--version"] st).2 =
    emitted st ++
    [show_message_log m1 Log; show_message_log m2 Log;
     call_event (priority Broken.env [] ["/opt/py"]) (VStr "/a") ["/opt/py"]
       (tool_call ["--version"] [] (VStr "/a"))] ++
    match priority Broken.env [] ["/opt/py"] with
    | InProcessModule => error_events Broken.env (format_exc (Fault "Failed to run over JSON-RPC."))
    | _ => []
    end.
Proof.
  intros st.
  eapply (backend_fault_escapes Broken.env st
            (setting_record "/a" (Sample.config "file:///a" [] ["/opt/py"] []))
            (VStr "/a") [] ["/opt/py"]).
  - vm_compute. reflexivity.
  - vm_compute. reflexivity.
  - vm_compute. reflexivity.
  - reflexivity.
  - reflexivity.
Defined.

(** X10: when the selected backend returns, and in the case of the
    JSON-RPC backend returns a result without an exception, both runners
    return that result unchanged; the last thing they log is the result
    line with the standard output of the result, and a standard error that
    is not empty is logged as well. *)
Theorem runner_returns_backend_result env st settings ws p i result :
  settings !! "workspaceFS" = Some ws →
  settings !! "path" = Some (VList p) →
  settings !! "interpreter" = Some (VList i) →
  (priority env p i = CrossRuntimeRpc → no_exception result) →
  (∀ extra,
     _get_settings_by_document env (GLOBAL_SETTINGS st) (WORKSPACE_SETTINGS st) None
     = Ok settings →
     backend_answer env (priority env p i) ws i (tool_call extra p ws) (sys_path_value st)
     = Ok result →
     (_run_tool env extra st).1 = Ok result ∧
     last (emitted (_run_tool env extra st).2)
     = Some (show_message_log (CRLF +:+ stdout result +:+ CRLF) Log) ∧
     (stderr result ≠ "" →
      show_message_log (stderr result) Log ∈ emitted (_run_tool env extra st).2)) ∧
  (∀ document use_stdin extra cwd a,
     passes_filters env document →
     _get_settings_by_document env (GLOBAL_SETTINGS st) (WORKSPACE_SETTINGS st)
       (Some document) = Ok settings →
     settings !! "cwd" = Some cwd →
     settings !! "args" = Some (VList a) →
     (use_stdin = false → is_Some (path document)) →
     backend_answer env (priority env p i) ws i
       (document_call document use_stdin extra p a cwd) (sys_path_value st) = Ok result →
     (_run_tool_on_document env document use_stdin extra st).1 = Ok (Some result) ∧
     last (emitted (_run_tool_on_document env document use_stdin extra st).2)
     = Some (show_message_log (uri document +:+ " :" +:+ CRLF +:+ stdout result) Log) ∧
     (stderr result ≠ "" →
      show_message_log (stderr result) Log
      ∈ emitted (_run_tool_on_document env document use_stdin extra st).2)).
Proof.
  intros Hws Hp Hi Hexc. split.
  - intros extra Hsettings Hanswer.
    by apply (run_tool_returns env extra st settings ws p i result).
  - intros document use_stdin extra cwd a Hpass Hsettings Hcwd Ha Hpath Hanswer.
    by apply (run_tool_on_document_returns env document use_stdin extra st
                settings ws cwd p i a result).
Qed.

Lemma runner_returns_backend_result_witness :
  let st := Sample.state_of
              (Sample.store_of
                 [Sample.config "file:///a" [] ["/usr/bin/python3"] ["--check"]]) in
  let document := mkDocument "file:///a/m.py" (Some "/a/m.py") "x = 1" in
  (_run_tool_on_document Broken.env document true None st).1
  = Ok (Some (RunResult2 "" "deprecated option")) ∧
  last (emitted (_run_tool_on_document Broken.env document true None st).2)
  = Some (show_message_log ("file:///a/m.py" +:+ " :" +:+ CRLF +:+ "") Log) ∧
  ("deprecated option" ≠ "" →
   show_message_log "deprecated option" Log
   ∈ emitted (_run_tool_on_document Broken.env document true None st).2).
Proof.
  intros st document.
  eapply (runner_returns_backend_result Broken.env st
            (setting_record "/a"
               (Sample.config "file:///a" [] ["/usr/bin/python3"] ["--check"]))
            (VStr "/a") [] ["/usr/bin/python3"] (RunResult2 "" "deprecated option")
         ) with (cwd := VStr "/a") (a := ["--check"]).
  - vm_compute. reflexivity.
  - vm_compute. reflexivity.
  - vm_compute. reflexivity.
  - discriminate.
  - repeat split.
  - reflexivity.
  - vm_compute. reflexivity.
  - vm_compute. reflexivity.
  - done.
  - reflexivity.
Defined.

(** X11: a document that lies under no workspace root, and whose directory
    has a URI, is run with the record synthesized for its directory; when
    the directory has none, the exception of [uris.from_fs_path] leaves the
    runner and no backend is called.  When the global settings set
    neither a tool path, nor an interpreter, nor arguments, and
    [sys.executable] is the current interpreter, the tool is run as a
    module in the directory of the document, with the module name, the
    call-site arguments and, unless stdin is used, the path of the document
    as its [argv]. *)
Theorem non_workspace_document_runs_in_process env document q use_stdin extra st :
  passes_filters env document →
  path document = Some q →
  _get_document_key (WORKSPACE_SETTINGS st) document = Ok None →
  (from_fs_path_error env (Path_str (Path_parent (Path_of q))) = None →
   GLOBAL_SETTINGS st !! "path" = None →
   GLOBAL_SETTINGS st !! "interpreter" = None →
   GLOBAL_SETTINGS st !! "args" = None →
   is_current_interpreter env (sys_executable env) = true →
   backend_calls (emitted (_run_tool_on_document env document use_stdin extra st).2) =
   backend_calls (emitted st) ++
   [(InProcessModule,
     {| argv := [TOOL_MODULE] ++ default [] extra ++ (if use_stdin then [] else [q]);
        use_stdin := use_stdin;
        cwd := VStr (Path_str (Path_parent (Path_of q)));
        source_text := Some (source document) |})]) ∧
  (∀ e, from_fs_path_error env (Path_str (Path_parent (Path_of q))) = Some e →
     _run_tool_on_document env document use_stdin extra st = (Raise e, st)).
Proof.
  intros Hpass Hq Hkey.
  set (key := Path_str (Path_parent (Path_of q))).
  pose proof (settings_by_document_no_key env (GLOBAL_SETTINGS st)
                (WORKSPACE_SETTINGS st) document q Hq Hkey) as Hres.
  fold key in Hres. split; [|shelve].
  intros Huri Hgp Hgi Hga Hcur. rewrite Huri in Hres.
  rewrite (run_tool_on_document_backend_call env document use_stdin extra st
             (default_record env (GLOBAL_SETTINGS st) key)
             (VStr key) (VStr key) [] [sys_executable env] []).
  - simpl. by rewrite Hcur, Hq.
  - done.
  - done.
  - apply default_record_lookup_workspaceFS.
  - apply default_record_lookup_cwd.
  - rewrite (default_record_lookup_default env _ key "path" (VList []))
      by (apply list_elem_of_In; simpl; tauto).
    unfold dict_default. by rewrite Hgp.
  - rewrite (default_record_lookup_default env _ key "interpreter"
               (VList [sys_executable env])) by (apply list_elem_of_In; simpl; tauto).
    unfold dict_default. by rewrite Hgi.
  - rewrite (default_record_lookup_default env _ key "args" (VList []))
      by (apply list_elem_of_In; simpl; tauto).
    unfold dict_default. by rewrite Hga.
  - intros _. by rewrite Hq.
  Unshelve.
  intros e Huri. rewrite Huri in Hres.
  destruct Hpass as (Hcell & Hparse & Hstd).
  unfold _run_tool_on_document. rewrite Hcell. run_all.
  rewrite Hparse, Hstd. cbn [negb]. by rewrite Hres.
Qed.

Lemma non_workspace_document_runs_in_process_witness :
  let st := Sample.state_of (Sample.store_of [Sample.config "file:///a" [] [] []]) in
  let document := mkDocument "file:///tmp/scratch/m.py" (Some "/tmp/scratch/m.py") "x = 1" in
  backend_calls (emitted (_run_tool_on_document Sample.env document false None st).2) =
  backend_calls (emitted st) ++
  [(InProcessModule,
    {| argv := [TOOL_MODULE] ++ default [] None ++ ["/tmp/scratch/m.py"];
       use_stdin := false;
       cwd := VStr (Path_str (Path_parent (Path_of "/tmp/scratch/m.py")));
       source_text := Some "x = 1" |})].
Proof.
  intros st document.
  destruct (non_workspace_document_runs_in_process Sample.env document
              "/tmp/scratch/m.py" false None st) as [Hrun _].
  - repeat split.
  - reflexivity.
  - vm_compute. reflexivity.
  - apply Hrun; reflexivity.
Defined.

(** X12: neither runner retries or falls back: whatever the host, the
    state and the arguments are, and whether the run returns or raises, a
    run only appends to the trace and calls at most one backend, at most
    once. *)
Theorem runners_call_at_most_one_backend env :
  (∀ extra st, ∃ events,
     emitted (_run_tool env extra st).2 = emitted st ++ events ∧
     (List.length (backend_calls events) ≤ 1)%nat) ∧
  (∀ document use_stdin extra st, ∃ events,
     emitted (_run_tool_on_document env document use_stdin extra st).2
     = emitted st ++ events ∧
     (List.length (backend_calls events) ≤ 1)%nat).
Proof.
  split.
  - intros extra. apply calls_one_run_tool.
  - intros document use_stdin extra. apply calls_one_run_tool_on_document.
Qed.

(** X13: a settings record that lacks a key the runner reads makes the run
    fail with [KeyError] for the first such key in reading order, before
    anything is logged or called: the state is as before.
    [_run_tool_on_document] reads [workspaceFS], [cwd], [path], then
    [interpreter] when the tool path is empty, then [args]; [_run_tool]
    reads [workspaceFS], [path], then [interpreter] when the tool path is
    empty. *)
Theorem missing_key_fails_before_effect env st settings k :
  (∀ document use_stdin extra,
     passes_filters env document →
     _get_settings_by_document env (GLOBAL_SETTINGS st) (WORKSPACE_SETTINGS st)
       (Some document) = Ok settings →
     first_missing settings (keys_read_on_document settings) = Some k →
     _run_tool_on_document env document use_stdin extra st = (Raise (KeyError k), st)) ∧
  (∀ extra,
     _get_settings_by_document env (GLOBAL_SETTINGS st) (WORKSPACE_SETTINGS st) None
     = Ok settings →
     first_missing settings (keys_read_run_tool settings) = Some k →
     _run_tool env extra st = (Raise (KeyError k), st)).
Proof.
  split.
  - intros document use_stdin extra (Hcell & Hparse & Hstd) Hsettings Hk.
    unfold _run_tool_on_document, select_on_document.
    rewrite Hcell. run_all. rewrite Hparse, Hstd. cbn [negb]. rewrite Hsettings.
    unfold keys_read_on_document in Hk. cbn [app first_missing] in Hk.
    destruct (settings !! "workspaceFS"); [|simplify_eq; by simpl].
    destruct (settings !! "cwd"); [|simplify_eq; by simpl].
    destruct (settings !! "path") as [tp|]; [|simplify_eq; by simpl].
    destruct (truthy tp); cbn [app first_missing] in Hk.
    + destruct (settings !! "args"); simplify_eq; by simpl.
    + destruct (settings !! "interpreter") as [i|]; [|simplify_eq; by simpl].
      destruct (settings !! "args"); simplify_eq.
      destruct i as [[|c s]|[|x l]]; simpl; try done;
        by destruct (is_current_interpreter _ _).
  - intros extra Hsettings Hk.
    unfold _run_tool, select_run_tool. run_all. rewrite Hsettings.
    unfold keys_read_run_tool in Hk. cbn [app first_missing] in Hk.
    destruct (settings !! "workspaceFS"); [|simplify_eq; by simpl].
    destruct (settings !! "path") as [tp|]; [|simplify_eq; by simpl].
    destruct (len_pos tp); cbn [app first_missing] in Hk; [done|].
    destruct (settings !! "interpreter"); simplify_eq; by simpl.
Qed.

Lemma missing_key_fails_before_effect_witness :
  let record := delete "interpreter" (setting_record "/a" (Sample.config "file:///a" [] [] [])) in
  let st := Sample.state_of [("/a", record)] in
  _run_tool_on_document Sample.env
    (mkDocument "file:///a/m.py" (Some "/a/m.py") "x = 1") false None st
  = (Raise (KeyError "interpreter"), st) ∧
  _run_tool Sample.env ["--version"] st = (Raise (KeyError "interpreter"), st).
Proof.
  intros record st.
  destruct (missing_key_fails_before_effect Sample.env st record "interpreter")
    as [Hdocument Hglobal].
  split.
  - apply Hdocument.
    + repeat split.
    + reflexivity.
    + vm_compute. reflexivity.
  - apply Hglobal.
    + reflexivity.
    + vm_compute. reflexivity.
Defined.

(** ** Logging *)

Lemma log_events env message st :
  emitted (log_error env message st).2 = emitted st ++ error_events env message ∧
  emitted (log_warning env message st).2 =
    emitted st ++ show_message_log message Warning ::
      (if bool_decide (getenv_show env ∈ ["onWarning"; "always"])
       then [show_message message Warning] else []) ∧
  emitted (log_always env message st).2 =
    emitted st ++ show_message_log message Info ::
      (if bool_decide (getenv_show env ∈ ["always"])
       then [show_message message Info] else []).
Proof.
  unfold log_error, log_warning, log_always, error_events. run_all.
  split_and!; destruct (bool_decide _); simpl; by rewrite <- ?app_assoc.
Qed.

(** X14: the three logging functions each write exactly one line to the
    log, at their level, followed by at most one notification at the same
    level and by nothing else, and the notifications they show are nested:
    whenever
    [log_always] shows one, so does [log_warning], and whenever
    [log_warning] shows one, so does [log_error]; with
    [LS_SHOW_NOTIFICATION] unset, or set to [off], none of them shows
    any. *)
Theorem notification_levels_nested env message st :
  let shown (m : M unit) := notifications (emitted (m st).2) ≠ notifications (emitted st) in
  (shown (log_always env message) → shown (log_warning env message)) ∧
  (shown (log_warning env message) → shown (log_error env message)) ∧
  (getenv_show env = "off" →
   ¬ shown (log_error env message) ∧ ¬ shown (log_warning env message) ∧
   ¬ shown (log_always env message)) ∧
  (emitted (log_error env message st).2
     = emitted st ++ show_message_log message Error ::
         (if bool_decide (getenv_show env ∈ ["onError"; "onWarning"; "always"])
          then [show_message message Error] else []) ∧
   emitted (log_warning env message st).2
     = emitted st ++ show_message_log message Warning ::
         (if bool_decide (getenv_show env ∈ ["onWarning"; "always"])
          then [show_message message Warning] else []) ∧
   emitted (log_always env message st).2
     = emitted st ++ show_message_log message Info ::
         (if bool_decide (getenv_show env ∈ ["always"])
          then [show_message message Info] else [])).
Proof.
  intros shown. subst shown. cbv beta.
  destruct (log_events env message st) as (He & Hw & Ha).
  rewrite He, Hw, Ha. unfold error_events, notifications.
  rewrite !omap_app. simpl.
  assert (∀ (l : list (string * MessageType)) x, l ++ [x] ≠ l) as Hgrow.
  { intros l x Heq. apply (f_equal List.length) in Heq.
    rewrite length_app in Heq. simpl in Heq. lia. }
  split_and!.
  - repeat case_bool_decide; simpl; rewrite ?app_nil_r; try done;
      first [ by intros _
            | intros _; exfalso;
              match goal with H : _ ∉ _ |- _ => apply H end; by right ].
  - repeat case_bool_decide; simpl; rewrite ?app_nil_r; try done;
      first [ by intros _
            | intros _; exfalso;
              match goal with H : _ ∉ _ |- _ => apply H end; by right ].
  - intros ->. rewrite !bool_decide_eq_false_2 by compute_done.
    simpl. rewrite !app_nil_r. split_and!; intros Hne; by apply Hne.
  - done.
  - done.
  - done.
Qed.

Lemma notification_levels_nested_witness :
  ¬ (notifications (emitted (log_error Sample.env "boom" (Sample.state_of [])).2)
     ≠ notifications (emitted (Sample.state_of []))).
Proof.
  eapply (notification_levels_nested Sample.env "boom" (Sample.state_of [])).
  reflexivity.
Defined.

(** ** The module search path at import time *)

Lemma sys_path_value_alter st f :
  sys_path_value (set_objects (alter f (sys_path st) (objects st)) st)
  = match objects st !! sys_path st with
    | Some l => f l
    | None => []
    end.
Proof.
  unfold sys_path_value. simpl. rewrite lookup_alter_eq.
  by destruct (objects st !! sys_path st).
Qed.

(** X15: [update_sys_path] changes the list object bound to [sys.path] in
    place and is idempotent: a second call with the same arguments changes
    nothing.  It keeps the entries that were there, in their order, adds
    nothing but the given path, and introduces no duplicate; the path is in
    [sys.path] afterwards whenever it is a directory and the strategy is
    one of the two known ones. *)
Theorem update_sys_path_idempotent isdir path_to_add strategy st :
  is_Some (objects st !! sys_path st) →
  let st1 := (update_sys_path isdir path_to_add strategy st).2 in
  (update_sys_path isdir path_to_add strategy st1).2 = st1 ∧
  sys_path st1 = sys_path st ∧
  sys_path_value st `sublist_of` sys_path_value st1 ∧
  (∀ x, x ∈ sys_path_value st1 → x = path_to_add ∨ x ∈ sys_path_value st) ∧
  (NoDup (sys_path_value st) → NoDup (sys_path_value st1)) ∧
  (isdir path_to_add = true → strategy ∈ ["useBundled"; "fromEnvironment"] →
   path_to_add ∈ sys_path_value st1).
Proof.
  intros [l Hl] st1. subst st1. unfold update_sys_path.
  assert (sys_path_value st = l) as Hval by (unfold sys_path_value; by rewrite Hl).
  destruct (bool_decide (path_to_add ∉ sys_path_value st)) eqn:Hin; simpl.
  - apply bool_decide_eq_true in Hin.
    destruct (isdir path_to_add) eqn:Hdir; simpl.
    + destruct (strategy =? "useBundled") eqn:Hb; simpl.
      * rewrite !sys_path_value_alter, Hl, <- Hval. simpl.
        rewrite bool_decide_eq_false_2 by (intros Hn; apply Hn; left). simpl.
        split_and!; [done..|by apply sublist_cons| | |intros _ _; left].
        -- by intros x [->|?]%elem_of_cons; [left|right].
        -- intros Hnd. by apply NoDup_cons.
      * destruct (strategy =? "fromEnvironment") eqn:He; simpl.
        -- rewrite !sys_path_value_alter, Hl, <- Hval. simpl.
           rewrite bool_decide_eq_false_2
             by (intros Hn; apply Hn, elem_of_app; right; left). simpl.
           split_and!; [done..|by apply sublist_inserts_r| | |].
           ++ intros x [?|Hx]%elem_of_app; [by right|].
              apply list_elem_of_singleton in Hx. by left.
           ++ intros Hnd. apply NoDup_app. split_and!; [done| |apply NoDup_singleton].
              by intros x Hx ->%list_elem_of_singleton.
           ++ intros _ _. apply elem_of_app. right. left.
        -- rewrite ?bool_decide_eq_true_2 by done. rewrite ?Hdir, ?Hb, ?He. simpl.
           split_and!; [done..|by right|done|].
           intros _ Hs. exfalso.
           apply String.eqb_neq in Hb, He.
           by repeat (apply elem_of_cons in Hs as [->|Hs]; [done|]);
             apply elem_of_nil in Hs.
    + rewrite ?bool_decide_eq_true_2 by done. rewrite ?Hdir. simpl.
      split_and!; [done..|by right|done|done].
  - rewrite ?Hin. simpl. apply bool_decide_eq_false in Hin.
    split_and!; [done..|by right|done|].
    intros _ _. by apply dec_stable.
Qed.

Lemma update_sys_path_idempotent_witness :
  let st := fresh_module {[ 0 := ["/usr/lib/python3"] ]} 0 in
  let isdir := String.eqb "/srv/libs" in
  (update_sys_path isdir "/srv/libs" "useBundled"
     (update_sys_path isdir "/srv/libs" "useBundled" st).2).2
  = (update_sys_path isdir "/srv/libs" "useBundled" st).2.
Proof.
  intros st isdir.
  apply (update_sys_path_idempotent isdir "/srv/libs" "useBundled" st).
  vm_compute. by eexists.
Defined.

Example update_sys_path_bundled :
  sys_path_value
    (update_sys_path (String.eqb "/srv/libs") "/srv/libs" "useBundled"
       (fresh_module {[ 0 := ["/usr/lib/python3"] ]} 0)).2
  = ["/srv/libs"; "/usr/lib/python3"].
Proof. vm_compute. reflexivity. Qed.

(** ** [initialize] *)

(** The state after the first two log lines and the update of the global
    settings. *)
Lemma initialize_run env json options st :
  ∃ st0,
    emitted st0 = emitted st ++
      [show_message_log ("CWD Server: " +:+ getcwd env) Log;
       show_message_log ("sys.path used to run Server:" +:+ CRLF +:+ "   " +:+
                         String.concat (CRLF +:+ "   ") (sys_path_value st)) Log] ∧
    WORKSPACE_SETTINGS st0 = WORKSPACE_SETTINGS st ∧
    GLOBAL_SETTINGS st0 = default ∅ (opt_globalSettings options) ∪ GLOBAL_SETTINGS st ∧
    match opt_settings options with
    | None => initialize env json options st = (Raise (KeyError "settings"), st0)
    | Some settings =>
        let result := _update_workspace_settings env (GLOBAL_SETTINGS st0) settings
                        (WORKSPACE_SETTINGS st0) in
        (initialize env json options st).1 = result.1 ∧
        WORKSPACE_SETTINGS (initialize env json options st).2 = result.2 ∧
        GLOBAL_SETTINGS (initialize env json options st).2 = GLOBAL_SETTINGS st0
    end.
Proof.
  eexists (set_GLOBAL_SETTINGS _ (add_event _ (add_event _ st))).
  split_and!; [simpl; by rewrite <- app_assoc|done|done|].
  unfold initialize, update_global_settings, call_update_workspace_settings.
  run_all. simpl.
  destruct (opt_settings options) as [settings|]; simpl; [|done].
  destruct (_update_workspace_settings _ _ _ _) as [[[]|e] W]; by simpl.
Qed.

Lemma dict_set_nonempty {V} (d : list (string * V)) k v : dict_set k v d ≠ [].
Proof. destruct d as [|[k0 v0] d]; simpl; [done|]. by case_decide. Qed.

Lemma update_nonempty env G (settings : option (list pydict)) W :
  (_update_workspace_settings env G settings W).1 = Ok tt →
  (_update_workspace_settings env G settings W).2 ≠ [].
Proof.
  intros Hok. destruct settings as [[|s l]|]; [apply dict_set_nonempty| |
    apply dict_set_nonempty].
  change (_update_workspace_settings env G (Some (s :: l)) W)
    with (update_loop env (s :: l) W) in *.
  pose proof (update_loop_ok_inv _ _ _ Hok) as Hws.
  apply Forall_cons in Hws as [[u Hu] _].
  rewrite (update_loop_cons _ _ _ _ _ Hu).
  pose proof (update_loop_keys_prefix env l
                (dict_set (to_fs_path env u) (setting_record (to_fs_path env u) s) W))
    as [more Hmore].
  intros Hnil. rewrite Hnil in Hmore.
  pose proof (dict_set_nonempty W (to_fs_path env u)
                (setting_record (to_fs_path env u) s)) as Hne.
  destruct (dict_set _ _ W); [done|]. done.
Qed.

(** C3, as amended: settings resolution does not fail on a store that is
    populated and whose records name their keys, for no document, for a
    document under a stored workspace root, and for a document under none
    whose directory has a URI; every update that returns normally on a
    store whose records name their keys leaves such a store.  With an
    empty store and a document that has a path whose directory has a URI
    it returns the record synthesized for that directory.  The default
    record for the current working directory is synthesized by the update
    for an empty payload: after that update on an empty store, resolving
    with no document returns this record, whose workspace root is the
    current working directory. *)
Theorem resolution_on_populated_store env G :
  (∀ W document, store_keyed W → W ≠ [] → directory_has_uri env W document →
     is_Ok (_get_settings_by_document env G W document)) ∧
  (∀ settings W,
     store_keyed W →
     (_update_workspace_settings env G settings W).1 = Ok tt →
     store_keyed (_update_workspace_settings env G settings W).2 ∧
     (_update_workspace_settings env G settings W).2 ≠ []) ∧
  (∀ document p, path document = Some p →
     from_fs_path_error env (Path_str (Path_parent (Path_of p))) = None →
     _get_settings_by_document env G [] (Some document) =
     Ok (default_record env G (Path_str (Path_parent (Path_of p))))) ∧
  (∀ settings, default [] settings = [] →
     let W := (_update_workspace_settings env G settings []).2 in
     store_keyed W ∧ W ≠ [] ∧
     _get_settings_by_document env G W None = Ok (default_record env G (getcwd env)) ∧
     default_record env G (getcwd env) !! "workspaceFS" = Some (VStr (getcwd env))).
Proof.
  split_and!.
  - intros W document. apply resolution_is_Ok.
  - intros settings W HW Hok. split; [by apply update_store_keyed|].
    by apply update_nonempty.
  - intros [u p' src] p. simpl. intros -> Huri. by rewrite Huri.
  - intros settings Hempty W.
    assert (W = [(getcwd env, default_record env G (getcwd env))]) as ->.
    { subst W. by destruct settings as [[|??]|]. }
    split_and!; [|done|done|apply default_record_lookup_workspaceFS].
    apply Forall_singleton, default_record_lookup_workspaceFS.
Qed.

Lemma resolution_on_populated_store_witness :
  is_Ok (_get_settings_by_document Sample.env ∅
           (Sample.store_of [Sample.config "file:///a" [] [] []])
           (Some (mkDocument "file:///b/m.py" (Some "/b/m.py") "x = 1"))).
Proof.
  apply (resolution_on_populated_store Sample.env ∅).
  - repeat constructor.
  - done.
  - intros d p [= <-] [= <-] _. reflexivity.
Defined.

(** C3, refuted as stated: with an empty store and no document the
    resolution raises. *)
Lemma resolution_raises_on_empty_store :
  _get_settings_by_document Sample.env ∅ [] None = Raise IndexError ∧
  ¬ is_Ok (_get_settings_by_document Sample.env ∅ [] None).
Proof. split; [done|]. by intros []. Qed.

(** X16: [initialize] merges the global settings of the options into
    [GLOBAL_SETTINGS] first, their keys winning, and they stay merged when
    the handler then raises.  Without a ["settings"] key it raises
    [KeyError] and leaves the store untouched; with one whose configuration
    objects each carry a workspace URI (an empty or absent list included)
    it returns normally. *)
Theorem initialize_outcome env json options st :
  (∀ settings, opt_settings options = Some settings →
     has_workspace (default [] settings) →
     (initialize env json options st).1 = Ok tt) ∧
  (opt_settings options = None →
   (initialize env json options st).1 = Raise (KeyError "settings") ∧
   WORKSPACE_SETTINGS (initialize env json options st).2 = WORKSPACE_SETTINGS st) ∧
  GLOBAL_SETTINGS (initialize env json options st).2
  = default ∅ (opt_globalSettings options) ∪ GLOBAL_SETTINGS st.
Proof.
  destruct (initialize_run env json options st) as (st0 & Hev & HW & HG & Hrun).
  destruct (opt_settings options) as [settings|] eqn:Hs.
  - destruct Hrun as (H1 & H2 & H3). split_and!; [|done|by rewrite H3].
    intros ? [= <-] Hws. rewrite H1.
    destruct settings as [[|s l]|]; simpl; [done| |done].
    by apply (update_loop_ok env (s :: l) (WORKSPACE_SETTINGS st0)).
  - rewrite Hrun. simpl. by split_and!.
Qed.

Lemma initialize_outcome_witness :
  (initialize Sample.env (mkJson (λ _, "[]") (λ _, "{}"))
     (mkInitializationOptions (Some {[ "args" := VList ["--check"] ]}) None)
     (fresh_module {[ 0 := ["/srv/libs"] ]} 0)).1
  = Raise (KeyError "settings").
Proof.
  eapply (initialize_outcome Sample.env (mkJson (λ _, "[]") (λ _, "{}"))
            (mkInitializationOptions (Some {[ "args" := VList ["--check"] ]}) None)
            (fresh_module {[ 0 := ["/srv/libs"] ]} 0)).
  reflexivity.
Defined.

(** X17: once [initialize] has returned normally on a store whose records
    name their keys, as the empty store of the module does, the store is
    not empty and its records still name their keys; so every later
    settings resolution returns a record, with no document and with any
    document other than one under no workspace root whose directory has no
    URI. *)
Theorem initialize_makes_resolution_total env json options st :
  (initialize env json options st).1 = Ok tt →
  store_keyed (WORKSPACE_SETTINGS st) →
  let st' := (initialize env json options st).2 in
  WORKSPACE_SETTINGS st' ≠ [] ∧
  store_keyed (WORKSPACE_SETTINGS st') ∧
  ∀ document,
    directory_has_uri env (WORKSPACE_SETTINGS st') document →
    is_Ok (_get_settings_by_document env (GLOBAL_SETTINGS st')
             (WORKSPACE_SETTINGS st') document).
Proof.
  intros Hok Hkeyed st'. subst st'.
  destruct (initialize_run env json options st) as (st0 & Hev & HW & HG & Hrun).
  destruct (opt_settings options) as [settings|]; [|by rewrite Hrun in Hok].
  destruct Hrun as (H1 & H2 & H3). rewrite H2.
  assert (store_keyed
            (_update_workspace_settings env (GLOBAL_SETTINGS st0) settings
               (WORKSPACE_SETTINGS st0)).2) as Hk.
  { apply update_store_keyed. by rewrite HW. }
  assert ((_update_workspace_settings env (GLOBAL_SETTINGS st0) settings
             (WORKSPACE_SETTINGS st0)).2 ≠ []) as Hne.
  { apply update_nonempty. by rewrite <- H1. }
  split_and!; [done..|]. intros document. by apply resolution_is_Ok.
Qed.

Lemma initialize_makes_resolution_total_witness :
  let st' := (initialize Sample.env (mkJson (λ _, "[]") (λ _, "{}"))
                (mkInitializationOptions None
                   (Some (Some [Sample.config "file:///a" [] [] []])))
                (fresh_module {[ 0 := ["/srv/libs"] ]} 0)).2 in
  WORKSPACE_SETTINGS st' ≠ [] ∧
  store_keyed (WORKSPACE_SETTINGS st') ∧
  ∀ document,
    directory_has_uri Sample.env (WORKSPACE_SETTINGS st') document →
    is_Ok (_get_settings_by_document Sample.env (GLOBAL_SETTINGS st')
             (WORKSPACE_SETTINGS st') document).
Proof.
  apply (initialize_makes_resolution_total Sample.env (mkJson (λ _, "[]") (λ _, "{}"))
           (mkInitializationOptions None
              (Some (Some [Sample.config "file:///a" [] [] []])))
           (fresh_module {[ 0 := ["/srv/libs"] ]} 0)).
  - vm_compute. reflexivity.
  - constructor.
Defined.

(** X18: when [initialize] is given no workspace settings on a freshly
    imported module, the store becomes the single default record for the
    current working directory, and the global settings sent in the same
    request are already in effect for it: each of [path], [interpreter],
    [args], [importStrategy] and [showNotifications] is the global value if
    there is one and the built-in default otherwise, while [cwd] and
    [workspaceFS] are the working directory whatever the global settings
    hold. *)
Theorem initialize_default_record env json (gs : pydict)
    (settings : option (list pydict)) o l :
  default [] settings = [] →
  let st' := (initialize env json
                (mkInitializationOptions (Some gs) (Some settings))
                (fresh_module o l)).2 in
  let record := default_record env gs (getcwd env) in
  WORKSPACE_SETTINGS st' = [(getcwd env, record)] ∧
  GLOBAL_SETTINGS st' = gs ∧
  record !! "cwd" = Some (VStr (getcwd env)) ∧
  record !! "workspaceFS" = Some (VStr (getcwd env)) ∧
  record !! "path" = Some (default (VList []) (gs !! "path")) ∧
  record !! "interpreter" = Some (default (VList [sys_executable env]) (gs !! "interpreter")) ∧
  record !! "args" = Some (default (VList []) (gs !! "args")) ∧
  record !! "importStrategy" = Some (default (VStr "useBundled") (gs !! "importStrategy")) ∧
  record !! "showNotifications" = Some (default (VStr "off") (gs !! "showNotifications")).
Proof.
  intros Hempty st' record. subst st' record.
  destruct (initialize_run env json (mkInitializationOptions (Some gs) (Some settings))
              (fresh_module o l)) as (st0 & Hev & HW & HG & H1 & H2 & H3).
  simpl in HW, HG. rewrite (right_id_L ∅ (∪)) in HG.
  rewrite H2, H3, HW, HG.
  split_and!; [|done|reflexivity..].
  by destruct settings as [[|??]|].
Qed.

Lemma initialize_default_record_witness :
  WORKSPACE_SETTINGS
    (initialize Sample.env (mkJson (λ _, "[]") (λ _, "{}"))
       (mkInitializationOptions (Some {[ "args" := VList ["--check"] ]}) (Some None))
       (fresh_module {[ 0 := ["/srv/libs"] ]} 0)).2
  = [("/srv", default_record Sample.env {[ "args" := VList ["--check"] ]} "/srv")].
Proof.
  eapply (initialize_default_record Sample.env (mkJson (λ _, "[]") (λ _, "{}"))
            {[ "args" := VList ["--check"] ]} None {[ 0 := ["/srv/libs"] ]} 0).
  reflexivity.
Defined.

(** ** Line endings *)

Lemma replace_crlf_unfold c d rest :
  replace_crlf (String c (String d rest)) =
  if Ascii.eqb c CR && Ascii.eqb d LF then String LF (replace_crlf rest)
  else String c (replace_crlf (String d rest)).
Proof. done. Qed.

Lemma replace_crlf_facts (n : nat) (s : string) :
  (String.length s ≤ n)%nat →
  (has_crlf s = false → replace_crlf s = s) ∧
  (String.length (replace_crlf s) ≤ String.length s)%nat ∧
  count_char LF (replace_crlf s) = count_char LF s.
Proof.
  revert s. induction n as [|n IH]; intros s Hlen.
  - destruct s; simpl in *; [done|lia].
  - destruct s as [|c [|d rest]]; [done|done|].
    rewrite replace_crlf_unfold. cbn [has_crlf].
    destruct (Ascii.eqb c CR && Ascii.eqb d LF) eqn:Hcd.
    + apply andb_prop in Hcd as [Hc Hd].
      apply Ascii.eqb_eq in Hc, Hd. subst c d.
      destruct (IH rest) as (_ & Hl & Hn); [simpl in Hlen; lia|].
      split_and!; [done|simpl in *; lia|]. simpl. by rewrite Hn.
    + destruct (IH (String d rest)) as (Hid & Hl & Hn); [simpl in *; lia|].
      split_and!.
      * cbn [orb]. intros Hno. by rewrite Hid.
      * cbn [String.length] in *. lia.
      * cbn [count_char]. by rewrite Hn.
Qed.

(** X19: the replacement of CRLF by LF that the direct-path backend gets
    leaves a text without a CRLF pair as it is, never makes the text
    longer, and keeps every line feed: the number of LF characters is the
    same before and after. *)
Theorem replace_crlf_keeps_line_feeds (s : string) :
  (has_crlf s = false → replace_crlf s = s) ∧
  (String.length (replace_crlf s) ≤ String.length s)%nat ∧
  count_char LF (replace_crlf s) = count_char LF s.
Proof. by apply (replace_crlf_facts (String.length s)). Qed.

Lemma replace_crlf_keeps_line_feeds_witness : replace_crlf "x = 1" = "x = 1".
Proof. apply (replace_crlf_keeps_line_feeds "x = 1"). reflexivity. Defined.

(** The replacement scans once, left to right: a CR before a CRLF pair
    makes a new pair. *)
Example replace_crlf_once :
  replace_crlf (String CR CRLF) = CRLF.
Proof. reflexivity. Qed.
